(** * The compiler bisector of [torch/_inductor/bisect_helper.py]

    A shallow embedding of [BisectionManager] and of the module-level
    functions around it, followed by the properties of the guard hook
    ([disable_subsystem]), of the state machine ([perform_bisection]),
    of the traversal ([do_bisect]) and of the command line.

    Conventions of the embedding.
    - Python [int] is [Z]; [//] is [Z.div] (floor division).
    - Python [str] is [string]; a character is its code point below 256.
    - The file system is a finite map from a path to the text of the
      file; a path is its text, as the module builds it.  Directories
      are implicit: a directory exists when a file lies below it.
      Writing always succeeds ([os.makedirs] and [open] for writing raise
      nothing); reading a path that is a directory raises
      [IsADirectoryError].
    - The interpreter's limit on the conversion between [int] and [str]
      ([int_max_str_digits]) is no part of [py_str] and [py_int];
      statements about a number or a literal given from outside keep
      within it by hypothesis.
    - Exceptions are values of [exn]; a computation returns an [outcome]
      together with the state it leaves behind, so that what was written
      before an exception stays written.
    - [while True] loops take a fuel argument; [OutOfFuel] is the outcome
      of a loop that has not finished within its fuel.
    - [print] calls are left out: the console is not part of the state. *)

From Stdlib Require Import ZArith Ascii String List Lia Bool.
From stdpp Require Import base gmap strings pretty list.

Local Open Scope Z_scope.

Set Default Proof Using "Type".

(** ** Python string built-ins used by the module *)

Module PyStr.

Definition LF : ascii := "010"%char.
Definition CR : ascii := "013"%char.

(** [str.isspace] on one character. *)
Definition isspace (c : ascii) : bool :=
  let n := nat_of_ascii c in
  ((9 <=? n)%nat && (n <=? 13)%nat) || ((28 <=? n)%nat && (n <=? 32)%nat)
  || (n =? 133)%nat || (n =? 160)%nat.

(** [s.startswith(prefix)]. *)
Fixpoint startswith (s prefix : string) {struct prefix} : bool :=
  match prefix, s with
  | EmptyString, _ => true
  | String a p, String b r => Ascii.eqb a b && startswith r p
  | String _ _, EmptyString => false
  end.

(** [s.endswith(c)] for a one-character suffix. *)
Fixpoint endswith_char (s : string) (c : ascii) : bool :=
  match s with
  | EmptyString => false
  | String a EmptyString => Ascii.eqb a c
  | String _ r => endswith_char r c
  end.

Fixpoint lstrip (s : string) : string :=
  match s with
  | EmptyString => EmptyString
  | String c r => if isspace c then lstrip r else s
  end.

Fixpoint rstrip (s : string) : string :=
  match s with
  | EmptyString => EmptyString
  | String c r =>
      match rstrip r with
      | EmptyString => if isspace c then EmptyString else String c EmptyString
      | r' => String c r'
      end
  end.

(** [s.strip()]. *)
Definition strip (s : string) : string := lstrip (rstrip s).

(** [s.split(sep)] for a one-character separator. *)
Fixpoint split (sep : ascii) (s : string) : list string :=
  match s with
  | EmptyString => [EmptyString]
  | String c r =>
      if Ascii.eqb c sep then EmptyString :: split sep r
      else match split sep r with
           | h :: t => String c h :: t
           | [] => [String c EmptyString]
           end
  end.

(** Universal newlines of a file opened for reading in text mode. *)
Fixpoint translate_newlines (s : string) : string :=
  match s with
  | EmptyString => EmptyString
  | String c r =>
      if Ascii.eqb c CR then
        match r with
        | String c' r' =>
            if Ascii.eqb c' LF then String LF (translate_newlines r')
            else String LF (translate_newlines r)
        | EmptyString => String LF EmptyString
        end
      else String c (translate_newlines r)
  end.

(** The lines of a text, each with its line ending. *)
Fixpoint keepends (s : string) : list string :=
  match s with
  | EmptyString => []
  | String c r =>
      if Ascii.eqb c LF then String c EmptyString :: keepends r
      else match keepends r with
           | h :: t => String c h :: t
           | [] => [String c EmptyString]
           end
  end.

(** [file.readlines()]. *)
Definition readlines (content : string) : list string :=
  keepends (translate_newlines content).

(** [file.writelines(lines)] on a fresh file. *)
Definition writelines (lines : list string) : string :=
  fold_right String.append EmptyString lines.

(** Every character of [s] satisfies [P]. *)
Fixpoint all_chars (P : ascii → bool) (s : string) : bool :=
  match s with
  | EmptyString => true
  | String c r => P c && all_chars P r
  end.

Definition is_digit (c : ascii) : bool :=
  let n := nat_of_ascii c in (48 <=? n)%nat && (n <=? 57)%nat.

Definition digit_val (c : ascii) : Z := Z.of_nat (nat_of_ascii c) - 48.

(** Digits of an integer literal, with single underscores between
    digits. *)
Fixpoint parse_digits (acc : Z) (after_digit : bool) (s : string) : option Z :=
  match s with
  | EmptyString => if after_digit then Some acc else None
  | String c r =>
      if is_digit c then parse_digits (10 * acc + digit_val c) true r
      else if Ascii.eqb c "_" && after_digit then parse_digits acc false r
      else None
  end.

(** An integer literal: an optional sign, then digits. *)
Definition parse_literal (s : string) : option Z :=
  match s with
  | String "-" r => Z.opp <$> parse_digits 0 false r
  | String "+" r => parse_digits 0 false r
  | r => parse_digits 0 false r
  end.

(** The white space [int()] skips around a literal: the white space of
    C below 127 and the Unicode white space above; unlike [str.strip],
    not the separators 0x1c to 0x1f. *)
Definition int_space (c : ascii) : bool :=
  let n := nat_of_ascii c in
  ((9 <=? n)%nat && (n <=? 13)%nat) || (n =? 32)%nat
  || (n =? 133)%nat || (n =? 160)%nat.

Fixpoint int_lstrip (s : string) : string :=
  match s with
  | EmptyString => EmptyString
  | String c r => if int_space c then int_lstrip r else s
  end.

Fixpoint int_rstrip (s : string) : string :=
  match s with
  | EmptyString => EmptyString
  | String c r =>
      match int_rstrip r with
      | EmptyString => if int_space c then EmptyString else String c EmptyString
      | r' => String c r'
      end
  end.

(** [sys.int_info.default_max_str_digits]: the longest decimal text
    the interpreter converts from or to an [int] unless it is configured
    otherwise. *)
Definition int_max_str_digits : nat := 4300.

(** [int(s)]: [None] stands for the [ValueError] of a malformed
    literal. *)
Definition py_int (s : string) : option Z :=
  parse_literal (int_lstrip (int_rstrip s)).

(** The characters [str(n)] is made of. *)
Definition numeric (c : ascii) : bool := is_digit c || Ascii.eqb c "-".

(** Neither white space nor the separator of a field. *)
Definition field_char (c : ascii) : bool :=
  negb (isspace c) && negb (Ascii.eqb c "=").

(** No line ending. *)
Definition line_char (c : ascii) : bool :=
  negb (Ascii.eqb c LF) && negb (Ascii.eqb c CR).

(** [str(n)], as an f-string formats an [int]. *)
Definition py_str (n : Z) : string := pretty n.

(** One step of [posixpath.join]. *)
Definition join_step (path b : string) : string :=
  if startswith b "/" then b
  else if String.eqb path "" || endswith_char path "/" then path +:+ b
  else path +:+ "/" +:+ b.

(** [os.path.join(a, *p)]. *)
Definition os_path_join (a : string) (p : list string) : string :=
  fold_left join_step p a.

End PyStr.

Import PyStr.

Global Arguments startswith : simpl never.


(** ** Outcomes, process state and the monad of the module *)

Inductive exn : Type :=
  | RuntimeError (msg : string)
  | ValueError (msg : string)
  | KeyError (key : string)
  | IndexError (msg : string)
  | IsADirectoryError (path : string)
  | StopIteration
  | SystemExit (code : Z).

Inductive outcome (A : Type) : Type :=
  | Ret (a : A)
  | Raise (e : exn)
  | OutOfFuel.

Arguments Ret {A} a.
Arguments Raise {A} e.
Arguments OutOfFuel {A}.

(** The mutable state the module works on: the files below the cache
    directory, the two module-level dictionaries, the class attribute
    [BisectionManager.bisection_enabled], and a ghost counter of the calls
    of the predicate [fn] (it is no variable of the source; it only lets
    properties speak of the number of probes). *)
Record state : Type := State {
  files : gmap string string;
  subsystem_call_counter : gmap string Z;
  call_counter_debug_info : gmap Z string;
  bisection_enabled : bool;
  probes : nat
}.

Definition set_files (f : gmap string string) (st : state) : state :=
  State f (subsystem_call_counter st) (call_counter_debug_info st)
        (bisection_enabled st) (probes st).

Definition set_subsystem_call_counter (c : gmap string Z) (st : state) : state :=
  State (files st) c (call_counter_debug_info st) (bisection_enabled st) (probes st).

Definition set_call_counter_debug_info (d : gmap Z string) (st : state) : state :=
  State (files st) (subsystem_call_counter st) d (bisection_enabled st) (probes st).

Definition set_bisection_enabled (b : bool) (st : state) : state :=
  State (files st) (subsystem_call_counter st) (call_counter_debug_info st) b (probes st).

Definition set_probes (n : nat) (st : state) : state :=
  State (files st) (subsystem_call_counter st) (call_counter_debug_info st)
        (bisection_enabled st) n.

(** What lies at a path. *)
Inductive entry : Type :=
  | File (content : string)
  | Directory
  | Absent.

(** A file lies below [path]. *)
Definition is_directory (fs : gmap string string) (path : string) : bool :=
  existsb (λ kv : string * string, startswith kv.1 (path +:+ "/"))
          (map_to_list fs).

Definition path_entry (fs : gmap string string) (path : string) : entry :=
  match fs !! path with
  | Some content => File content
  | None => if is_directory fs path then Directory else Absent
  end.

(** The state of a fresh process on a given file system. *)
Definition fresh_process (f : gmap string string) : state := State f ∅ ∅ false 0.

Definition M (A : Type) : Type := state → outcome A * state.

Definition ret {A} (a : A) : M A := λ st, (Ret a, st).

Definition bind {A B} (m : M A) (k : A → M B) : M B := λ st,
  match m st with
  | (Ret a, st') => k a st'
  | (Raise e, st') => (Raise e, st')
  | (OutOfFuel, st') => (OutOfFuel, st')
  end.

Definition raise {A} (e : exn) : M A := λ st, (Raise e, st).

Definition out_of_fuel {A} : M A := λ st, (OutOfFuel, st).

Definition gets {A} (f : state → A) : M A := λ st, (Ret (f st), st).

Definition modify (f : state → state) : M unit := λ st, (Ret tt, f st).

Global Instance M_ret : MRet M := @ret.
Global Instance M_bind : MBind M := λ A B k m, bind m k.

(** [l[i]] on a list. *)
Definition py_index {A} (l : list A) (i : nat) : M A :=
  match l !! i with
  | Some x => mret x
  | None => raise (IndexError "list index out of range")
  end.

(** [l.index(x)] on a list of strings. *)
Fixpoint list_index (l : list string) (x : string) : option nat :=
  match l with
  | [] => None
  | y :: r => if String.eqb y x then Some 0%nat else S <$> list_index r x
  end.

(** [d[k]] on a dictionary kept in insertion order. *)
Fixpoint dict_get {V} (d : list (string * V)) (k : string) : option V :=
  match d with
  | [] => None
  | (k', v) :: r => if String.eqb k' k then Some v else dict_get r k
  end.

(** [int(s)] with its [ValueError]. *)
Definition int (s : string) : M Z :=
  match py_int s with
  | Some z => mret z
  | None => raise (ValueError "invalid literal for int() with base 10")
  end.

(** Truth value of a [str]: the empty string is false. *)
Definition str_truthy (s : string) : bool := negb (String.eqb s "").

(** [x is not None] on an [Optional]. *)
Definition is_not_None {A} (x : option A) : bool :=
  match x with Some _ => true | None => false end.

(** A guarded call-site of the pipeline under test: the arguments it
    passes to the guard hook. *)
Record call_site : Type := CallSite {
  site_backend : string;
  site_subsystem : string;
  site_debug_info : option (unit → string)
}.


(** ** A sample session

    The cache directory is [/c], the environment is empty, and the
    cursor is on [("inductor", "lowerings")]. *)

Definition sample_env : string → option string := λ _, None.

(** The same environment with a maximum-count override. *)
Definition sample_env_max (value : string) : string → option string :=
  λ name, if String.eqb name "TORCH_BISECT_MAX" then Some value else None.

Definition sample_status : string :=
  "backend=inductor" +:+ String LF ("subsystem=lowerings" +:+ String LF "").

Definition sample_range (low high : Z) : string :=
  writelines ["low=" +:+ py_str low +:+ String LF "";
              "high=" +:+ py_str high +:+ String LF ""].

Definition sample_files (run_state : string) (range : option (Z * Z))
  : gmap string string :=
  let f := <["/c/bisect/bisect_status.txt" := sample_status]>
             (<["/c/bisect/inductor/lowerings_run_state.txt" := run_state]> ∅) in
  match range with
  | Some (low, high) =>
      <["/c/bisect/inductor/lowerings_bisect_range.txt" := sample_range low high]> f
  | None => f
  end.

Definition sample_state (run_state : string) (range : option (Z * Z)) : state :=
  State (sample_files run_state range) ∅ ∅ true 0.

Definition sample_site : call_site := CallSite "inductor" "lowerings" None.

Definition sample_site_info : call_site :=
  CallSite "inductor" "lowerings" (Some (λ _, "lowering of node 5")).

(** ** The module [bisect_helper] *)

Section BisectHelper.

(** The result of [cache_dir()], imported from
    [torch._inductor.runtime.cache_dir_utils]. *)
Variable cache_dir : string.

(** [os.environ.get(name, None)]; the environment does not change
    while the process runs, so the [lru_cache] of [get_env_val] is
    transparent. *)
Variable environ : string → option string.

Definition SUBDIR_NAME : string := "bisect".

Definition BACKENDS : list (string * list string) :=
  [ ("eager", []);
    ("aot_eager", []);
    ("aot_eager_decomp_partition", ["decomposition"]);
    ("inductor", ["post_grad_passes"; "lowerings"]) ].

Definition reset_counters : M unit :=
  modify (λ st, set_call_counter_debug_info ∅ (set_subsystem_call_counter ∅ st)).

Definition get_env_val (env_str : string) : option string := environ env_str.

Definition get_dir : string := cache_dir +:+ "/" +:+ SUBDIR_NAME.

Definition write_lines_to_file (file_path : string) (lines : list string) : M unit :=
  modify (λ st, set_files (<[file_path := writelines lines]> (files st)) st).

Definition read_lines_from_file (file_path : string) : M (list string) :=
  found ← gets (λ st, path_entry (files st) file_path);
  match found with
  | File content => mret (readlines content)
  | Directory => raise (IsADirectoryError file_path)
  | Absent => mret []
  end.

Definition run_state_path (backend_name subsystem_name : string) : string :=
  os_path_join get_dir [backend_name; subsystem_name +:+ "_run_state.txt"].

Definition bisect_status_path : string :=
  os_path_join get_dir ["bisect_status.txt"].

Definition bisect_range_path (backend_name subsystem_name : string) : string :=
  os_path_join get_dir [backend_name; subsystem_name +:+ "_bisect_range.txt"].

Definition update_run_state (backend_name subsystem_name run_state : string) : M unit :=
  write_lines_to_file (run_state_path backend_name subsystem_name) [run_state].

Definition update_bisect_status (backend_name subsystem_name : string) : M unit :=
  write_lines_to_file bisect_status_path
    ["backend=" +:+ backend_name +:+ String LF "";
     "subsystem=" +:+ subsystem_name +:+ String LF ""].

Definition update_bisect_range (backend_name subsystem_name : string) (low high : Z)
  : M unit :=
  write_lines_to_file (bisect_range_path backend_name subsystem_name)
    ["low=" +:+ py_str low +:+ String LF "";
     "high=" +:+ py_str high +:+ String LF ""].

(** [line.strip().split("=")[1]]. *)
Definition field_value (line : string) : M string :=
  py_index (split "=" (strip line)) 1.

(** The [for line in lines] loop of [get_backend] and of
    [get_subsystem]: the value of the first line with the prefix. *)
Fixpoint first_field (prefix : string) (lines : list string) : M string :=
  match lines with
  | [] => mret ""
  | line :: rest =>
      if startswith line prefix then field_value line
      else first_field prefix rest
  end.

Definition get_backend : M string :=
  let from_file :=
    lines ← read_lines_from_file bisect_status_path;
    first_field "backend=" lines in
  match get_env_val "TORCH_BISECT_BACKEND" with
  | Some val => if str_truthy val then mret val else from_file
  | None => from_file
  end.

Definition get_subsystem : M string :=
  let from_file :=
    lines ← read_lines_from_file bisect_status_path;
    first_field "subsystem=" lines in
  match get_env_val "TORCH_BISECT_SUBSYSTEM" with
  | Some val => if str_truthy val then mret val else from_file
  | None => from_file
  end.

Definition get_run_state (backend_name subsystem_name : string) : M string :=
  lines ← read_lines_from_file (run_state_path backend_name subsystem_name);
  match lines with
  | line :: _ => mret (strip line)
  | [] => mret ""
  end.

(** The [for line in reversed(lines)] loop of [get_bisect_range], on
    the lines still to visit. *)
Fixpoint range_scan (lines : list string) (low high : option Z)
  : M (option Z * option Z) :=
  match lines with
  | [] => mret (low, high)
  | line :: rest =>
      '(low, high) ←
        (if startswith line "low=" then
           s ← field_value line; v ← int s; mret (Some v, high)
         else if startswith line "high=" then
           s ← field_value line; v ← int s; mret (low, Some v)
         else mret (low, high));
      if is_not_None low && is_not_None high then mret (low, high)
      else range_scan rest low high
  end.

Definition get_bisect_range (backend_name subsystem_name : string) : M (Z * Z) :=
  lines ← read_lines_from_file (bisect_range_path backend_name subsystem_name);
  r ← range_scan (rev lines) None None;
  match r with
  | (Some low, Some high) => mret (low, high)
  | _ =>
      raise (RuntimeError
        ("Trying to get bisect range when it is not set: subsystem "
         +:+ subsystem_name))
  end.

(** [shutil.rmtree(get_dir())]: every file below the directory goes. *)
Definition delete_bisect_status : M unit :=
  modify (λ st, set_files
    (filter (λ kv : string * string, startswith kv.1 (get_dir +:+ "/") = false)
            (files st)) st).

Definition get_system_counter (name : string) (increment : bool) : M Z := λ st,
  let curr := default 0 (subsystem_call_counter st !! name) in
  (Ret curr,
   if increment
   then set_subsystem_call_counter (<[name := curr + 1]> (subsystem_call_counter st)) st
   else st).

Definition disable_subsystem (backend subsystem : string)
    (debug_info : option (unit → string)) : M bool :=
  enabled ← gets bisection_enabled;
  if negb enabled then mret false else
  b ← get_backend;
  if negb (String.eqb b backend) then mret false else
  s ← get_subsystem;
  if negb (String.eqb s subsystem) then mret false else
  let state_machine :=
    run_state ← get_run_state backend subsystem;
    if String.eqb run_state "test_disable" then mret true
    else if String.eqb run_state "find_max_bounds" then
      counter ← get_system_counter subsystem true;
      _ ← update_bisect_range backend subsystem 0 counter;
      mret false
    else
      '(low, high) ← get_bisect_range backend subsystem;
      let midpoint := (low + high) `div` 2 in
      call_counter ← get_system_counter subsystem true;
      _ ← (if (low <=? call_counter) && (call_counter <=? high)
              && (low - high <=? 2) && is_not_None debug_info
           then match debug_info with
                | Some producer =>
                    modify (λ st, set_call_counter_debug_info
                      (<[call_counter := producer tt]> (call_counter_debug_info st)) st)
                | None => mret tt
                end
           else mret tt);
      mret (midpoint <? call_counter) in
  match get_env_val "TORCH_BISECT_MAX" with
  | Some val =>
      if str_truthy val then
        counter ← get_system_counter subsystem true;
        bound ← int val;
        mret (bound <? counter)
      else state_machine
  | None => state_machine
  end.

Definition advance_subsystem (curr_backend curr_subsystem : string)
  : M (option string) :=
  match dict_get BACKENDS curr_backend with
  | None => raise (KeyError curr_backend)
  | Some current_subsystems =>
      match list_index current_subsystems curr_subsystem with
      | None => raise (ValueError "list.index(x): x not in list")
      | Some current_subsystem_index =>
          if Z.of_nat current_subsystem_index
               <? Z.of_nat (length current_subsystems) - 1
          then
            next ← py_index current_subsystems (current_subsystem_index + 1);
            _ ← update_bisect_status curr_backend next;
            _ ← update_run_state curr_backend next "test_disable";
            mret (Some next)
          else mret None
      end
  end.

Definition advance_backend (curr_backend : string) : M (option string) :=
  match list_index (BACKENDS.*1) curr_backend with
  | None => raise (ValueError "list.index(x): x not in list")
  | Some current_system_index =>
      if Z.of_nat current_system_index <? Z.of_nat (length BACKENDS) - 1
      then
        next ← py_index (BACKENDS.*1) (current_system_index + 1);
        _ ← update_bisect_status next "";
        mret (Some next)
      else mret None
  end.

(** A call [fn()] of the predicate: one probe. *)
Definition call_fn (fn : M bool) : M bool :=
  _ ← modify (λ st, set_probes (S (probes st)) st);
  fn.

(** One turn of the [while True] loop of [perform_bisection], up to
    the final [if cli_interface]: [inr r] is [return r], [inl s] falls
    through with [curr_subsystem = s]. *)
Definition perform_bisection_body (curr_backend curr_subsystem : string)
    (fn : M bool) : M (string + bool) :=
  run_state ← get_run_state curr_backend curr_subsystem;
  _ ← reset_counters;
  if String.eqb run_state "test_disable" then
    ok ← call_fn fn;
    if negb ok then
      next_subsystem ← advance_subsystem curr_backend curr_subsystem;
      match next_subsystem with
      | Some next => if str_truthy next then mret (inl next) else mret (inr false)
      | None => mret (inr false)
      end
    else
      _ ← update_run_state curr_backend curr_subsystem "find_max_bounds";
      mret (inl curr_subsystem)
  else if String.eqb run_state "find_max_bounds" then
    ok ← call_fn fn;
    if (ok : bool) then
      raise (RuntimeError
        ("Function succeeded with 'find_max_bounds' status for "
         +:+ curr_backend +:+ " - " +:+ curr_subsystem +:+ "."))
    else
      '(_, high) ← get_bisect_range curr_backend curr_subsystem;
      _ ← update_run_state curr_backend curr_subsystem "bisect";
      mret (inl curr_subsystem)
  else if String.eqb run_state "bisect" then
    '(low, high) ← get_bisect_range curr_backend curr_subsystem;
    let midpoint := (low + high) `div` 2 in
    ok ← call_fn fn;
    _ ← (if (ok : bool)
         then update_bisect_range curr_backend curr_subsystem (midpoint + 1) high
         else update_bisect_range curr_backend curr_subsystem low midpoint);
    '(low, high) ← get_bisect_range curr_backend curr_subsystem;
    if low =? high then mret (inr true) else mret (inl curr_subsystem)
  else raise (RuntimeError ("Unexpected run_state " +:+ run_state)).

Fixpoint perform_bisection (fuel : nat) (curr_backend curr_subsystem : string)
    (fn : M bool) (cli_interface : bool) : M bool :=
  match fuel with
  | O => out_of_fuel
  | S fuel =>
      r ← perform_bisection_body curr_backend curr_subsystem fn;
      match r with
      | inr result => mret result
      | inl curr_subsystem =>
          if cli_interface then raise (SystemExit 0)
          else perform_bisection fuel curr_backend curr_subsystem fn cli_interface
      end
  end.

Definition initialize_system : M unit :=
  match BACKENDS with
  | (curr_backend, _) :: _ => update_bisect_status curr_backend ""
  | [] => raise StopIteration
  end.

(** The [DisableBisect] object of [do_bisect]: its [__del__] runs when
    the frame of [do_bisect] is released, whatever the outcome. *)
Definition finally {A} (m : M A) (cleanup : M unit) : M A := λ st,
  match m st with
  | (OutOfFuel, st') => (OutOfFuel, st')
  | (o, st') => (o, (cleanup st').2)
  end.

(** One turn of the [while True] loop of [do_bisect], up to the final
    [if cli_interface]: [inr r] is [return r], [inl (b, s)] falls
    through with the cursor variables [b] and [s]. *)
Definition do_bisect_body (fuel : nat) (curr_backend curr_subsystem : string)
    (fn : M bool) (cli_interface : bool)
  : M (string * string + list string * Z) :=
  _ ← reset_counters;
  if str_truthy curr_subsystem then
    result ← perform_bisection fuel curr_backend curr_subsystem fn cli_interface;
    if (result : bool) then
      curr_subsystem ← get_subsystem;
      '(low, _) ← get_bisect_range curr_backend curr_subsystem;
      mret (inr ([curr_backend; curr_subsystem], low))
    else
      next_subsystem ← advance_subsystem curr_backend curr_subsystem;
      match next_subsystem with
      | Some next =>
          if str_truthy next then mret (inl (curr_backend, next))
          else mret (inr ([curr_backend], 0))
      | None => mret (inr ([curr_backend], 0))
      end
  else
    ok ← call_fn fn;
    if (ok : bool) then
      next_backend ← advance_backend curr_backend;
      match next_backend with
      | Some next =>
          if str_truthy next then mret (inl (next, curr_subsystem))
          else mret (inr ([], 0))
      | None => mret (inr ([], 0))
      end
    else
      match dict_get BACKENDS curr_backend with
      | None => raise (KeyError curr_backend)
      | Some current_subsystems =>
          match current_subsystems with
          | first :: _ =>
              _ ← update_bisect_status curr_backend first;
              _ ← update_run_state curr_backend first "test_disable";
              mret (inl (curr_backend, first))
          | [] => mret (inr ([curr_backend], 0))
          end
      end.

Fixpoint do_bisect_loop (inner fuel : nat) (curr_backend curr_subsystem : string)
    (fn : M bool) (cli_interface : bool) : M (list string * Z) :=
  match fuel with
  | O => out_of_fuel
  | S fuel =>
      r ← do_bisect_body inner curr_backend curr_subsystem fn cli_interface;
      match r with
      | inr result => mret result
      | inl (curr_backend, curr_subsystem) =>
          if cli_interface then raise (SystemExit 0)
          else do_bisect_loop inner fuel curr_backend curr_subsystem fn cli_interface
      end
  end.

Definition do_bisect (fuel : nat) (fn : M bool) (cli_interface : bool)
  : M (list string * Z) :=
  let search :=
    curr_backend ← get_backend;
    curr_subsystem ← get_subsystem;
    '(curr_backend, curr_subsystem) ←
      (if negb (str_truthy curr_backend) then
         _ ← initialize_system;
         curr_backend ← get_backend;
         curr_subsystem ← get_subsystem;
         mret (curr_backend, curr_subsystem)
       else mret (curr_backend, curr_subsystem));
    do_bisect_loop fuel fuel curr_backend curr_subsystem fn cli_interface in
  if negb cli_interface then
    bisection_enabled_orig ← gets bisection_enabled;
    _ ← delete_bisect_status;
    _ ← modify (set_bisection_enabled true);
    finally search
      (_ ← modify (set_bisection_enabled bisection_enabled_orig);
       delete_bisect_status)
  else search.

(** [command_line_usage()] with [sys.argv = argv]. *)
Definition command_line_usage (fuel : nat) (argv : list string) : M unit :=
  if (length argv <? 2)%nat then raise (SystemExit 1) else
  command ← py_index argv 1;
  if String.eqb command "end" then
    _ ← delete_bisect_status; raise (SystemExit 0)
  else if String.eqb command "start" then
    _ ← delete_bisect_status; _ ← initialize_system; raise (SystemExit 0)
  else if negb (String.eqb command "good" || String.eqb command "bad") then
    raise (SystemExit 1)
  else
    let test_function : M bool := mret (String.eqb command "good") in
    backend ← get_backend;
    if negb (str_truthy backend) then
      raise (ValueError "Must call start prior to good or bad")
    else
      _ ← do_bisect fuel test_function true;
      mret tt.

(** [get_subsystem()] and [get_backend()] return a [str]; [str] is a
    part of [Optional[str]], which is what [is not None] looks at. *)
Definition get_is_bisection_enabled : M bool :=
  subsystem ← get_subsystem;
  if is_not_None (Some subsystem) then mret true
  else
    backend ← get_backend;
    mret (is_not_None (Some backend)).

(** The assignment at the end of the module, run at import. *)
Definition module_init : M unit :=
  enabled ← get_is_bisection_enabled;
  modify (set_bisection_enabled enabled).

(** *** Probes

    A probe, as the pipeline under test runs it: its guarded call-sites
    fire in order, each asks the guard hook, and the verdict of the run
    is a function of the answers. *)
Fixpoint run_sites (sites : list call_site) : M (list bool) :=
  match sites with
  | [] => mret []
  | site :: rest =>
      d ← disable_subsystem (site_backend site) (site_subsystem site)
            (site_debug_info site);
      ds ← run_sites rest;
      mret (d :: ds)
  end.

Definition run_workload (sites : list call_site) (verdict : list bool → bool)
  : M bool :=
  ds ← run_sites sites;
  mret (verdict ds).

(** *** Vocabulary of the statements *)

(** [m] neither reads nor writes the state. *)
Definition pure {A} (m : M A) : Prop := ∀ st st', m st = ((m st').1, st).

(** [m] only looks at what lies at [path], and writes nothing. *)
Definition reads_file {A} (path : string) (m : M A) : Prop :=
  ∀ st st', path_entry (files st') path = path_entry (files st) path →
            m st' = ((m st).1, st').

(** A maximum-count override is in force. *)
Definition max_override : bool :=
  match get_env_val "TORCH_BISECT_MAX" with
  | Some val => str_truthy val
  | None => false
  end.

(** The guard hook is live for [(backend, subsystem)]: bisection is
    enabled, the Global Cursor is this pair, and no maximum-count
    override is in force. *)
Definition guard_active (backend subsystem : string) (st : state) : Prop :=
  bisection_enabled st = true
  ∧ get_backend st = (Ret backend, st)
  ∧ get_subsystem st = (Ret subsystem, st)
  ∧ max_override = false.

(** The value a counter read would observe. *)
Definition counter_value (name : string) (st : state) : Z :=
  default 0 (subsystem_call_counter st !! name).

(** The state a guard call leaves in the third branch: the counter is
    one higher, and the producer's text is cached when the test on the
    range lets it. *)
Definition after_bisect_call (s : string) (low high : Z) (d : option (unit → string))
    (st : state) : state :=
  let c := counter_value s st in
  let st1 := set_subsystem_call_counter (<[s := c + 1]> (subsystem_call_counter st)) st in
  match d with
  | Some producer =>
      if (low <=? c) && (c <=? high) && (low - high <=? 2)
      then set_call_counter_debug_info
             (<[c := producer tt]> (call_counter_debug_info st1)) st1
      else st1
  | None => st1
  end.

(** The call-site belongs to [(backend, subsystem)]. *)
Definition site_of (backend subsystem : string) (site : call_site) : bool :=
  String.eqb (site_backend site) backend
  && String.eqb (site_subsystem site) subsystem.

(** How often the guarded call-site of [(backend, subsystem)] fires in
    one run of the workload. *)
Fixpoint fires (backend subsystem : string) (sites : list call_site) : nat :=
  match sites with
  | [] => 0
  | site :: rest =>
      if site_of backend subsystem site then S (fires backend subsystem rest)
      else fires backend subsystem rest
  end.

(** The answers a workload gets when exactly the calls of
    [(backend, subsystem)] with an index above [mid] are suppressed;
    [count] is the index of the next such call. *)
Fixpoint suppress_pattern (backend subsystem : string) (mid count : Z)
    (sites : list call_site) : list bool :=
  match sites with
  | [] => []
  | site :: rest =>
      if site_of backend subsystem site
      then (mid <? count) :: suppress_pattern backend subsystem mid (count + 1) rest
      else false :: suppress_pattern backend subsystem mid count rest
  end.

(** The text [update_bisect_range] writes. *)
Definition range_text (low high : Z) : string :=
  writelines ["low=" +:+ py_str low +:+ String LF "";
              "high=" +:+ py_str high +:+ String LF ""].

(** The state [reset_counters] leaves. *)
Definition cleared (st : state) : state :=
  set_call_counter_debug_info ∅ (set_subsystem_call_counter ∅ st).

(** The state in which the probe of one turn of [perform_bisection]
    starts: counters reset, one more call of [fn] on the ghost count. *)
Definition probe_state (st : state) : state :=
  set_probes (S (probes st)) (cleared st).

(** The Range one turn in [bisect] persists, given the answer of [fn]. *)
Definition narrowed (low high : Z) (ok : bool) : Z * Z :=
  let midpoint := (low + high) `div` 2 in
  if ok then (midpoint + 1, high) else (low, midpoint).


(** The invariant of the [bisect] phase: the guard is live for the
    subsystem, its Run State is [bisect] and its Range is
    [(low, high)]. *)
Definition bisecting (backend subsystem : string) (low high : Z) (st : state)
  : Prop :=
  guard_active backend subsystem st
  ∧ get_run_state backend subsystem st = (Ret "bisect", st)
  ∧ get_bisect_range backend subsystem st = (Ret (low, high), st).

(** The [bisect] loop of [perform_bisection], driven by a workload,
    ends with the Range [[index, index]] after exactly [count] probes. *)
Definition bisect_ends_at (backend subsystem : string)
    (sites : list call_site) (verdict : list bool → bool) (st : state)
    (index : Z) (count : Z) : Prop :=
  ∃ fuel st',
    perform_bisection fuel backend subsystem (run_workload sites verdict) false st
    = (Ret true, st')
    ∧ get_bisect_range backend subsystem st' = (Ret (index, index), st')
    ∧ Z.of_nat (probes st') = Z.of_nat (probes st) + count.

(** The guard hook raises instead of answering. *)
Definition guard_raises (backend subsystem : string)
    (debug_info : option (unit → string)) (st : state) : Prop :=
  ∃ e st', disable_subsystem backend subsystem debug_info st = (Raise e, st').


(** [m] calls the predicate [fn] not at all, finishes within its
    fuel, and raises nothing but errors (never [sys.exit(0)]). *)
Definition careful {A} (m : M A) : Prop :=
  ∀ st, probes (m st).2 = probes st
        ∧ match (m st).1 with
          | Ret _ => True
          | Raise e => e ≠ SystemExit 0
          | OutOfFuel => False
          end.

(** [m] calls the predicate [fn] not at all and finishes within its
    fuel. *)
Definition quiet {A} (m : M A) : Prop :=
  ∀ st, probes (m st).2 = probes st ∧ (m st).1 ≠ OutOfFuel.





(** An override of the cursor's subsystem is in force. *)
Definition subsystem_override : bool :=
  match get_env_val "TORCH_BISECT_SUBSYSTEM" with
  | Some val => str_truthy val
  | None => false
  end.


(** [m] writes no file but [path], and leaves the enabled flag and the
    count of probes alone. *)
Definition writes_only {A} (path : string) (m : M A) : Prop :=
  ∀ st, (∀ p, p ≠ path → files (m st).2 !! p = files st !! p)
        ∧ bisection_enabled (m st).2 = bisection_enabled st
        ∧ probes (m st).2 = probes st.


(** The answers a workload gets when every call of
    [(backend, subsystem)] is suppressed. *)
Definition all_suppressed (backend subsystem : string) (sites : list call_site)
  : list bool :=
  map (site_of backend subsystem) sites.

(** From [st], [m] writes no file, or it writes [path] where the file
    [beside] exists. *)
Definition writes_beside {A} (path beside : string) (m : M A) (st : state)
  : Prop :=
  files (m st).2 = files st
  ∨ (is_Some (files st !! beside)
     ∧ ∃ v, files (m st).2 = <[path := v]> (files st)).

(** A name as the table [BACKENDS] has them: no separator of a path
    and no dot, so that the name is one component of a path and neither
    [.] nor [..]. *)
Definition plain_name (name : string) : bool :=
  all_chars (λ c, negb (Ascii.eqb c "/") && negb (Ascii.eqb c ".")) name.

(** Some dot of [s] has a separator after it. *)
Fixpoint dot_then_slash (s : string) : bool :=
  match s with
  | EmptyString => false
  | String c r =>
      (Ascii.eqb c "." && negb (all_chars (λ c, negb (Ascii.eqb c "/")) r))
      || dot_then_slash r
  end.

(** * Properties *)

(** ** Strings *)

Lemma append_cons (c : ascii) (a b : string) :
  String c a +:+ b = String c (a +:+ b).
Proof. reflexivity. Qed.

Lemma append_nil_l (b : string) : "" +:+ b = b.
Proof. reflexivity. Qed.

Lemma append_assoc (a b c : string) : (a +:+ b) +:+ c = a +:+ (b +:+ c).
Proof.
  induction a as [|x a IH]; [done|]. rewrite !append_cons. by f_equal.
Qed.

Lemma append_nil_r (a : string) : a +:+ "" = a.
Proof. induction a as [|x a IH]; [done|]. rewrite append_cons. by f_equal. Qed.

Lemma length_append (a b : string) :
  String.length (a +:+ b) = (String.length a + String.length b)%nat.
Proof.
  induction a as [|x a IH]; [done|]. rewrite append_cons. simpl. by rewrite IH.
Qed.

(** Two texts that end with suffixes of the same length end with the
    same suffix. *)
Lemma append_same_length_suffix (x y u v : string) :
  String.length u = String.length v → x +:+ u = y +:+ v → u = v.
Proof.
  intros Hlen Heq.
  assert (Hxy : String.length x = String.length y).
  { apply (f_equal String.length) in Heq. rewrite !length_append in Heq. lia. }
  clear Hlen. revert y Heq Hxy.
  induction x as [|c x IH]; intros [|d y] Heq Hxy; simpl in Hxy; try done.
  rewrite !append_cons in Heq. injection Heq as _ Heq. apply (IH y); [done | lia].
Qed.

Lemma all_chars_app P (a b : string) :
  all_chars P (a +:+ b) = all_chars P a && all_chars P b.
Proof.
  induction a as [|x a IH]; [done|]. rewrite append_cons. simpl.
  by rewrite IH, andb_assoc.
Qed.

Lemma all_chars_impl (P Q : ascii → bool) (s : string) :
  (∀ c, P c = true → Q c = true) → all_chars P s = true → all_chars Q s = true.
Proof.
  intros HPQ. induction s as [|c s IH]; simpl; [done|].
  rewrite !andb_true_iff. intros [? ?]. auto.
Qed.

Lemma startswith_cons (a b : ascii) (s p : string) :
  startswith (String b s) (String a p) = Ascii.eqb a b && startswith s p.
Proof. reflexivity. Qed.

Lemma startswith_app (s p : string) :
  startswith s p = true → ∃ r, s = p +:+ r.
Proof.
  revert s. induction p as [|a p IH]; intros s.
  - by exists s.
  - destruct s as [|b s]; [done|]. rewrite startswith_cons, andb_true_iff.
    intros [Hab Hp]. apply Ascii.eqb_eq in Hab as ->.
    destruct (IH _ Hp) as [r ->]. by exists r.
Qed.

(** *** [strip] *)

Lemma rstrip_cons_nonspace (c : ascii) (r : string) :
  isspace c = false → rstrip (String c r) = String c (rstrip r).
Proof. intros Hc. simpl. rewrite Hc. by destruct (rstrip r). Qed.

Lemma rstrip_all_space (w : string) :
  all_chars isspace w = true → rstrip w = "".
Proof.
  induction w as [|c w IH]; simpl; [done|]. rewrite andb_true_iff.
  intros [Hc Hw]. by rewrite (IH Hw), Hc.
Qed.

Lemma rstrip_app_space (a w : string) :
  all_chars (λ c, negb (isspace c)) a = true → all_chars isspace w = true →
  rstrip (a +:+ w) = a.
Proof.
  intros Ha Hw. induction a as [|c a IH]; simpl in Ha.
  - by apply rstrip_all_space.
  - apply andb_true_iff in Ha as [Hc Ha]. apply negb_true_iff in Hc.
    rewrite append_cons, rstrip_cons_nonspace by done. by rewrite IH.
Qed.


(** *** [split] *)

Lemma split_nonempty (sep : ascii) (s : string) : split sep s ≠ [].
Proof.
  induction s as [|c s IH]; simpl; [done|].
  destruct (Ascii.eqb c sep); [done|]. by destruct (split sep s).
Qed.

Lemma split_no_sep (sep : ascii) (s : string) :
  all_chars (λ c, negb (Ascii.eqb c sep)) s = true → split sep s = [s].
Proof.
  induction s as [|c s IH]; simpl; [done|]. rewrite andb_true_iff.
  intros [Hc Hs]. apply negb_true_iff in Hc. by rewrite Hc, (IH Hs).
Qed.

Lemma split_cons_other (sep c : ascii) (s : string) :
  Ascii.eqb c sep = false →
  ∃ h t, split sep s = h :: t ∧ split sep (String c s) = String c h :: t.
Proof.
  intros Hc. simpl. rewrite Hc.
  destruct (split sep s) as [|h t] eqn:E; [by destruct (split_nonempty sep s)|].
  by exists h, t.
Qed.

(** *** [readlines] *)

Lemma translate_newlines_id (s : string) :
  all_chars (λ c, negb (Ascii.eqb c CR)) s = true → translate_newlines s = s.
Proof.
  induction s as [|c s IH]; simpl; [done|]. rewrite andb_true_iff.
  intros [Hc Hs]. apply negb_true_iff in Hc. by rewrite Hc, (IH Hs).
Qed.

Lemma keepends_line (a rest : string) :
  all_chars (λ c, negb (Ascii.eqb c LF)) a = true →
  keepends (a +:+ String LF rest) = (a +:+ String LF "") :: keepends rest.
Proof.
  induction a as [|c a IH]; [done|]. rewrite append_cons. simpl.
  rewrite andb_true_iff.
  intros [Hc Ha]. apply negb_true_iff in Hc. by rewrite Hc, (IH Ha).
Qed.

Lemma lstrip_all_nonspace (s : string) :
  all_chars (λ c, negb (isspace c)) s = true → lstrip s = s.
Proof.
  destruct s as [|c s]; simpl; [done|]. rewrite andb_true_iff.
  intros [Hc _]. apply negb_true_iff in Hc. by rewrite Hc.
Qed.

Lemma strip_line (a : string) :
  all_chars (λ c, negb (isspace c)) a = true → strip (a +:+ String LF "") = a.
Proof.
  intros Ha. unfold strip. rewrite rstrip_app_space by done.
  by apply lstrip_all_nonspace.
Qed.

Lemma split_app (sep : ascii) (a b : string) :
  all_chars (λ c, negb (Ascii.eqb c sep)) a = true →
  split sep (a +:+ String sep b) = a :: split sep b.
Proof.
  induction a as [|c a IH]; rewrite ?append_cons, ?append_nil_l; simpl.
  - by rewrite Ascii.eqb_refl.
  - rewrite andb_true_iff. intros [Hc Ha]. apply negb_true_iff in Hc.
    by rewrite Hc, (IH Ha).
Qed.

Lemma readlines_two (a b : string) :
  all_chars line_char a = true → all_chars line_char b = true →
  readlines (writelines [a +:+ String LF ""; b +:+ String LF ""])
  = [a +:+ String LF ""; b +:+ String LF ""].
Proof.
  intros Ha Hb. unfold readlines, writelines. cbn [fold_right].
  rewrite append_nil_r.
  assert (HLF : ∀ x, all_chars line_char x = true →
            all_chars (λ c, negb (Ascii.eqb c LF)) x = true).
  { intros x. apply all_chars_impl. intros c. unfold line_char.
    rewrite andb_true_iff. by intros [? ?]. }
  assert (HCR : ∀ x, all_chars line_char x = true →
            all_chars (λ c, negb (Ascii.eqb c CR)) x = true).
  { intros x. apply all_chars_impl. intros c. unfold line_char.
    rewrite andb_true_iff. by intros [? ?]. }
  rewrite translate_newlines_id.
  - rewrite append_assoc, append_cons, append_nil_l.
    rewrite keepends_line by auto. f_equal.
    rewrite keepends_line by auto. done.
  - rewrite !all_chars_app. simpl. by rewrite (HCR a Ha), (HCR b Hb).
Qed.

(** *** Printing and reading back an [int] *)

Lemma pretty_N_char_digit (x : N) : is_digit (pretty_N_char x) = true.
Proof. unfold pretty_N_char. by repeat case_match. Qed.

Lemma pretty_N_char_val (x : N) :
  (x < 10)%N → digit_val (pretty_N_char x) = Z.of_N x.
Proof.
  intros Hx.
  assert (x = 0 ∨ x = 1 ∨ x = 2 ∨ x = 3 ∨ x = 4 ∨ x = 5 ∨ x = 6 ∨ x = 7
          ∨ x = 8 ∨ x = 9)%N as H by lia.
  by repeat (destruct H as [->|H]); [..|subst x].
Qed.

Lemma pretty_N_go_digits (x : N) (s : string) :
  all_chars is_digit s = true → all_chars is_digit (pretty_N_go x s) = true.
Proof.
  revert s. induction (N.lt_wf_0 x) as [x _ IH]; intros s Hs.
  assert (x = 0 ∨ 0 < x)%N as [->|Hx] by lia; [by rewrite pretty_N_go_0|].
  rewrite pretty_N_go_step by done. apply IH.
  - apply N.div_lt; lia.
  - simpl. by rewrite pretty_N_char_digit.
Qed.

Lemma pretty_N_go_parse (x : N) :
  (0 < x)%N →
  ∃ k, 0 ≤ k ∧ ∀ s acc fl,
    parse_digits acc fl (pretty_N_go x s)
    = parse_digits (acc * 10 ^ k + Z.of_N x) true s.
Proof.
  induction (N.lt_wf_0 x) as [x _ IH]; intros Hx.
  assert (Hmod : (x `mod` 10 < 10)%N) by (apply N.mod_lt; lia).
  assert (Hdiv : x = (10 * (x `div` 10) + x `mod` 10)%N)
    by (apply N.div_mod; lia).
  assert (x `div` 10 = 0 ∨ 0 < x `div` 10)%N as [H0|Hpos] by lia.
  - exists 1. split; [lia|]. intros s acc fl.
    rewrite pretty_N_go_step, H0, pretty_N_go_0 by done. simpl.
    rewrite pretty_N_char_digit, pretty_N_char_val by done.
    f_equal. lia.
  - destruct (IH (x `div` 10)%N) as (k & Hk & IHk); [apply N.div_lt; lia|done|].
    exists (k + 1). split; [lia|]. intros s acc fl.
    rewrite pretty_N_go_step, IHk by done. simpl.
    rewrite pretty_N_char_digit, pretty_N_char_val by done.
    f_equal. rewrite Z.pow_add_r by lia. lia.
Qed.

Lemma parse_literal_digit (c : ascii) (r : string) :
  is_digit c = true →
  parse_literal (String c r) = parse_digits 0 false (String c r).
Proof. by destruct c as [[] [] [] [] [] [] [] []]. Qed.

Lemma digit_numeric (c : ascii) : is_digit c = true → numeric c = true.
Proof. unfold numeric. by intros ->. Qed.

Lemma numeric_not_space (c : ascii) : numeric c = true → negb (isspace c) = true.
Proof. by destruct c as [[] [] [] [] [] [] [] []]. Qed.

Lemma numeric_not_int_space (c : ascii) : numeric c = true → int_space c = false.
Proof. by destruct c as [[] [] [] [] [] [] [] []]. Qed.

Lemma int_rstrip_numeric (s : string) :
  all_chars numeric s = true → int_rstrip s = s.
Proof.
  induction s as [|c s IH]; simpl; [done|]. rewrite andb_true_iff.
  intros [Hc Hs]. rewrite (IH Hs), (numeric_not_int_space c Hc).
  by destruct s.
Qed.

Lemma int_lstrip_numeric (s : string) :
  all_chars numeric s = true → int_lstrip s = s.
Proof.
  destruct s as [|c s]; simpl; [done|]. rewrite andb_true_iff.
  intros [Hc _]. by rewrite (numeric_not_int_space c Hc).
Qed.

Lemma numeric_field_char (c : ascii) : numeric c = true → field_char c = true.
Proof. by destruct c as [[] [] [] [] [] [] [] []]. Qed.

Lemma numeric_line_char (c : ascii) : numeric c = true → line_char c = true.
Proof. by destruct c as [[] [] [] [] [] [] [] []]. Qed.

(** [str(n)] is an optional minus sign and the decimal digits of the
    absolute value. *)
Lemma py_str_shape (z : Z) :
  ∃ d, all_chars is_digit d = true
       ∧ parse_digits 0 false d = Some (Z.abs z)
       ∧ py_str z = if z <? 0 then String "-" d else d.
Proof.
  destruct z as [|p|p].
  - by exists "0".
  - exists (pretty_N_go (N.pos p) ""). split_and!.
    + by apply pretty_N_go_digits.
    + destruct (pretty_N_go_parse (N.pos p)) as (k & _ & Hk); [done|].
      rewrite Hk. simpl. f_equal.
    + done.
  - exists (pretty_N_go (N.pos p) ""). split_and!.
    + by apply pretty_N_go_digits.
    + destruct (pretty_N_go_parse (N.pos p)) as (k & _ & Hk); [done|].
      rewrite Hk. simpl. f_equal.
    + done.
Qed.

Lemma py_str_numeric (z : Z) : all_chars numeric (py_str z) = true.
Proof.
  destruct (py_str_shape z) as (d & Hd & _ & ->).
  assert (all_chars numeric d = true)
    by (revert Hd; apply all_chars_impl, digit_numeric).
  by destruct (z <? 0).
Qed.

Lemma py_int_py_str (z : Z) : py_int (py_str z) = Some z.
Proof.
  pose proof (py_str_numeric z) as Hnum.
  unfold py_int. rewrite int_rstrip_numeric, int_lstrip_numeric by done.
  destruct (py_str_shape z) as (d & Hd & Hparse & ->).
  destruct (Z.ltb_spec z 0) as [Hneg|Hpos].
  - simpl. rewrite Hparse. simpl. f_equal. lia.
  - destruct d as [|c d]; [done|]. simpl in Hd.
    apply andb_true_iff in Hd as [Hc _].
    rewrite parse_literal_digit, Hparse by done. f_equal. lia.
Qed.

Lemma int_py_str (z : Z) : int (py_str z) = mret z.
Proof. unfold int. by rewrite py_int_py_str. Qed.

(** ** The monad *)

Lemma mret_bind {A B} (a : A) (k : A → M B) : (mret a ≫= k) = k a.
Proof. reflexivity. Qed.

Lemma bind_ret {A B} (m : M A) (k : A → M B) st a st' :
  m st = (Ret a, st') → (m ≫= k) st = k a st'.
Proof. intros H. unfold mbind, M_bind, bind. by rewrite H. Qed.

Lemma bind_raise {A B} (m : M A) (k : A → M B) st e st' :
  m st = (Raise e, st') → (m ≫= k) st = (Raise e, st').
Proof. intros H. unfold mbind, M_bind, bind. by rewrite H. Qed.

Lemma pure_mret {A} (a : A) : pure (mret a).
Proof. by intros st st'. Qed.

Lemma pure_raise {A} (e : exn) : pure (@raise A e).
Proof. by intros st st'. Qed.

Lemma pure_bind {A B} (m : M A) (k : A → M B) :
  pure m → (∀ a, pure (k a)) → pure (m ≫= k).
Proof.
  intros Hm Hk st st'. unfold mbind, M_bind, bind.
  rewrite (Hm st st'), (Hm st' st').
  destruct (m st').1 as [a|e|]; simpl; [apply Hk|done..].
Qed.

Lemma pure_py_index {A} (l : list A) (i : nat) : pure (py_index l i).
Proof. unfold py_index. destruct (l !! i); [apply pure_mret|apply pure_raise]. Qed.

Lemma pure_int (s : string) : pure (int s).
Proof. unfold int. destruct (py_int s); [apply pure_mret|apply pure_raise]. Qed.

Lemma pure_field_value (line : string) : pure (field_value line).
Proof. apply pure_py_index. Qed.

Lemma pure_first_field (prefix : string) (lines : list string) :
  pure (first_field prefix lines).
Proof.
  induction lines as [|line rest IH]; simpl; [apply pure_mret|].
  destruct (startswith line prefix); [apply pure_field_value|done].
Qed.

Lemma pure_range_scan (lines : list string) (low high : option Z) :
  pure (range_scan lines low high).
Proof.
  revert low high. induction lines as [|line rest IH]; intros low high; simpl.
  { apply pure_mret. }
  apply pure_bind.
  - destruct (startswith line "low="); [|destruct (startswith line "high=")];
      repeat (first [apply pure_mret | apply pure_field_value | apply pure_int
                    | apply pure_bind; [|intros ?]]).
  - intros [l h]. destruct (is_not_None l && is_not_None h);
      [apply pure_mret|apply IH].
Qed.

Lemma pure_run (A : Type) (m : M A) st o st' :
  pure m → m st = (o, st') → ∀ st2, m st2 = (o, st2).
Proof.
  intros Hm H st2. rewrite (Hm st2 st), H. done.
Qed.

Lemma startswith_append (p r : string) : startswith (p +:+ r) p = true.
Proof.
  induction p as [|a p IH]; [done|].
  by rewrite append_cons, startswith_cons, Ascii.eqb_refl, IH.
Qed.

Lemma startswith_app_l (a p r : string) :
  startswith a p = true → startswith (a +:+ r) p = true.
Proof.
  intros H. apply startswith_app in H as [r0 ->].
  rewrite append_assoc. apply startswith_append.
Qed.

Lemma gets_bind {A B} (f : state → A) (k : A → M B) st :
  (gets f ≫= k) st = k (f st) st.
Proof. reflexivity. Qed.


Lemma get_system_counter_bind {B} (name : string) (k : Z → M B) st :
  (get_system_counter name true ≫= k) st
  = k (counter_value name st)
      (set_subsystem_call_counter
         (<[name := counter_value name st + 1]> (subsystem_call_counter st)) st).
Proof. reflexivity. Qed.

(** ** The file system: files and the directories above them *)

Lemma is_directory_spec (fs : gmap string string) (path : string) :
  is_directory fs path = true
  ↔ ∃ k v, fs !! k = Some v ∧ startswith k (path +:+ "/") = true.
Proof.
  unfold is_directory. rewrite existsb_exists. split.
  - intros [[k v] [Hin Hk]]. exists k, v. split; [|done].
    apply elem_of_map_to_list. by apply list_elem_of_In.
  - intros (k & v & Hkv & Hk). exists (k, v). split; [|done].
    apply list_elem_of_In. by apply elem_of_map_to_list.
Qed.

Lemma is_directory_insert (fs : gmap string string) (q v path : string) :
  is_directory (<[q := v]> fs) path
  = is_directory fs path || startswith q (path +:+ "/").
Proof.
  apply eq_iff_eq_true. rewrite orb_true_iff, !is_directory_spec. split.
  - intros (k & x & Hk & Hpre). destruct (decide (k = q)) as [->|Hne].
    + by right.
    + left. exists k, x. by rewrite lookup_insert_ne in Hk.
  - intros [(k & x & Hk & Hpre)|Hpre].
    + destruct (decide (k = q)) as [->|Hne].
      * exists q, v. by rewrite lookup_insert_eq.
      * exists k, x. by rewrite lookup_insert_ne.
    + exists q, v. by rewrite lookup_insert_eq.
Qed.

Lemma is_directory_empty (path : string) : is_directory ∅ path = false.
Proof. unfold is_directory. by rewrite map_to_list_empty. Qed.

Lemma path_entry_file (fs : gmap string string) (path content : string) :
  fs !! path = Some content → path_entry fs path = File content.
Proof. intros H. unfold path_entry. by rewrite H. Qed.

Lemma path_entry_absent (fs : gmap string string) (path : string) :
  fs !! path = None → is_directory fs path = false →
  path_entry fs path = Absent.
Proof. intros H Hd. unfold path_entry. by rewrite H, Hd. Qed.

Lemma path_entry_directory (fs : gmap string string) (path : string) :
  fs !! path = None → is_directory fs path = true →
  path_entry fs path = Directory.
Proof. intros H Hd. unfold path_entry. by rewrite H, Hd. Qed.

(** Writing [q] leaves what lies at another path, unless it puts the
    first file below it. *)
Lemma path_entry_insert (fs : gmap string string) (q v path : string) :
  path ≠ q →
  (startswith q (path +:+ "/") = true → is_directory fs path = true) →
  path_entry (<[q := v]> fs) path = path_entry fs path.
Proof.
  intros Hne Hdir. unfold path_entry.
  rewrite lookup_insert_ne, is_directory_insert by done.
  destruct (fs !! path); [done|].
  destruct (startswith q (path +:+ "/")); [|by rewrite orb_false_r].
  by rewrite Hdir.
Qed.

(** An existing file is found whatever else was written. *)
Lemma path_entry_same_file (fs fs' : gmap string string) (path : string) :
  is_Some (fs !! path) → fs' !! path = fs !! path →
  path_entry fs' path = path_entry fs path.
Proof. intros [x Hx] H. unfold path_entry. by rewrite H, Hx. Qed.


(** A prefix that ends in a separator lies within [X] when nothing
    after [X] has a separator. *)
Lemma startswith_app_slash (X t z : string) :
  all_chars (λ c, negb (Ascii.eqb c "/")) t = true →
  startswith (X +:+ t) (z +:+ "/") = true → startswith X (z +:+ "/") = true.
Proof.
  intros Ht. revert z. induction X as [|x X IH]; intros z.
  - rewrite append_nil_l. intros H. apply startswith_app in H as [r ->].
    rewrite !all_chars_app in Ht. apply andb_true_iff in Ht as [Ht _].
    by apply andb_true_iff in Ht as [_ Ht].
  - destruct z as [|a z].
    + by rewrite append_nil_l, append_cons, !startswith_cons.
    + rewrite !append_cons, !startswith_cons, !andb_true_iff.
      intros [Ha H]. split; [done|]. by apply IH.
Qed.

(** Writing next to an existing file creates no directory. *)
Lemma path_entry_sibling (fs : gmap string string) (X t t' v path : string) :
  all_chars (λ c, negb (Ascii.eqb c "/")) t = true →
  is_Some (fs !! (X +:+ t')) → path ≠ X +:+ t →
  path_entry (<[X +:+ t := v]> fs) path = path_entry fs path.
Proof.
  intros Ht [x Hx] Hne. apply path_entry_insert; [done|].
  intros Hpre. apply is_directory_spec. exists (X +:+ t'), x. split; [done|].
  by apply startswith_app_l, (startswith_app_slash X t).
Qed.

Lemma read_lines_file {A} (path content : string) (k : list string → M A) st :
  files st !! path = Some content →
  (read_lines_from_file path ≫= k) st = k (readlines content) st.
Proof.
  intros H. unfold read_lines_from_file.
  unfold mbind at 1, M_bind at 1, bind at 1.
  by rewrite gets_bind, (path_entry_file _ _ _ H).
Qed.

Lemma read_lines_absent {A} (path : string) (k : list string → M A) st :
  files st !! path = None → is_directory (files st) path = false →
  (read_lines_from_file path ≫= k) st = k [] st.
Proof.
  intros H Hd. unfold read_lines_from_file.
  unfold mbind at 1, M_bind at 1, bind at 1.
  by rewrite gets_bind, (path_entry_absent _ _ H Hd).
Qed.

Lemma read_lines_directory {A} (path : string) (k : list string → M A) st :
  files st !! path = None → is_directory (files st) path = true →
  (read_lines_from_file path ≫= k) st = (Raise (IsADirectoryError path), st).
Proof.
  intros H Hd. unfold read_lines_from_file.
  unfold mbind at 1, M_bind at 1, bind at 1.
  by rewrite gets_bind, (path_entry_directory _ _ H Hd).
Qed.

Lemma read_then_pure {A} (path : string) (k : list string → M A) :
  (∀ lines, pure (k lines)) → reads_file path (read_lines_from_file path ≫= k).
Proof.
  intros Hk st st' Hf. unfold read_lines_from_file, mbind, M_bind, bind, gets.
  rewrite Hf.
  destruct (path_entry (files st) path); cbn; [apply Hk|done|apply Hk].
Qed.

Lemma reads_file_run {A} (path : string) (m : M A) st o st1 st' :
  reads_file path m → m st = (o, st1) →
  path_entry (files st') path = path_entry (files st) path → m st' = (o, st').
Proof. intros Hm H Hf. rewrite (Hm st st' Hf), H. done. Qed.

Lemma reads_file_state {A} (path : string) (m : M A) st :
  reads_file path m → (m st).2 = st.
Proof. intros Hm. by rewrite (Hm st st eq_refl). Qed.

Lemma get_run_state_reads (b s : string) :
  reads_file (run_state_path b s) (get_run_state b s).
Proof.
  apply read_then_pure. intros [|line rest]; apply pure_mret.
Qed.

Lemma get_bisect_range_reads (b s : string) :
  reads_file (bisect_range_path b s) (get_bisect_range b s).
Proof.
  apply read_then_pure. intros lines. apply pure_bind; [apply pure_range_scan|].
  intros [[l|] [h|]]; first [apply pure_mret | apply pure_raise].
Qed.

Lemma get_backend_reads : reads_file bisect_status_path get_backend.
Proof.
  unfold get_backend.
  assert (reads_file bisect_status_path
            (read_lines_from_file bisect_status_path ≫= first_field "backend="))
    by (apply read_then_pure, pure_first_field).
  destruct (get_env_val "TORCH_BISECT_BACKEND") as [val|]; [|done].
  destruct (str_truthy val); [|done]. by intros st st' _.
Qed.

Lemma get_subsystem_reads : reads_file bisect_status_path get_subsystem.
Proof.
  unfold get_subsystem.
  assert (reads_file bisect_status_path
            (read_lines_from_file bisect_status_path ≫= first_field "subsystem="))
    by (apply read_then_pure, pure_first_field).
  destruct (get_env_val "TORCH_BISECT_SUBSYSTEM") as [val|]; [|done].
  destruct (str_truthy val); [|done]. by intros st st' _.
Qed.

(** ** Paths: the three kinds of record never share a file *)

Lemma join_step_suffix (path b : string) : ∃ p, join_step path b = p +:+ b.
Proof.
  unfold join_step. destruct (startswith b "/"); [by exists ""|].
  destruct (_ || _); [by exists path|].
  exists (path +:+ "/"). by rewrite append_assoc.
Qed.

Lemma os_path_join_suffix (a : string) (p : list string) (last : string) :
  ∃ q, os_path_join a (p ++ [last]) = q +:+ last.
Proof.
  unfold os_path_join. rewrite fold_left_app. simpl. apply join_step_suffix.
Qed.

Lemma run_state_path_suffix (b s : string) :
  ∃ q, run_state_path b s = q +:+ "state.txt".
Proof.
  destruct (os_path_join_suffix get_dir [b] (s +:+ "_run_state.txt")) as [q Hq].
  exists (q +:+ s +:+ "_run_"). unfold run_state_path. cbn [app] in Hq. rewrite Hq.
  by rewrite !append_assoc.
Qed.

Lemma bisect_range_path_suffix (b s : string) :
  ∃ q, bisect_range_path b s = q +:+ "range.txt".
Proof.
  destruct (os_path_join_suffix get_dir [b] (s +:+ "_bisect_range.txt")) as [q Hq].
  exists (q +:+ s +:+ "_bisect_"). unfold bisect_range_path. cbn [app] in Hq.
  rewrite Hq. by rewrite !append_assoc.
Qed.

Lemma bisect_status_path_suffix : ∃ q, bisect_status_path = q +:+ "tatus.txt".
Proof.
  destruct (os_path_join_suffix get_dir [] "bisect_status.txt") as [q Hq].
  exists (q +:+ "bisect_s"). unfold bisect_status_path. cbn [app] in Hq.
  rewrite Hq. by rewrite !append_assoc.
Qed.

Lemma run_state_path_ne_range (b s b' s' : string) :
  run_state_path b s ≠ bisect_range_path b' s'.
Proof.
  destruct (run_state_path_suffix b s) as [q ->].
  destruct (bisect_range_path_suffix b' s') as [q' ->]. intros H.
  by apply append_same_length_suffix in H.
Qed.

Lemma run_state_path_ne_status (b s : string) :
  run_state_path b s ≠ bisect_status_path.
Proof.
  destruct (run_state_path_suffix b s) as [q ->].
  destruct bisect_status_path_suffix as [q' ->]. intros H.
  by apply append_same_length_suffix in H.
Qed.

Lemma bisect_range_path_ne_status (b s : string) :
  bisect_range_path b s ≠ bisect_status_path.
Proof.
  destruct (bisect_range_path_suffix b s) as [q ->].
  destruct bisect_status_path_suffix as [q' ->]. intros H.
  by apply append_same_length_suffix in H.
Qed.

(** ** What is written is what is read back *)

Lemma keepends_single (a : string) :
  all_chars (λ c, negb (Ascii.eqb c LF)) a = true → a ≠ "" → keepends a = [a].
Proof.
  induction a as [|c a IH]; [done|]. simpl. rewrite andb_true_iff.
  intros [Hc Ha] _. apply negb_true_iff in Hc. rewrite Hc.
  destruct a as [|c' a]; [done|]. by rewrite IH.
Qed.

Lemma nonspace_line_char (c : ascii) :
  negb (isspace c) = true → line_char c = true.
Proof. by destruct c as [[] [] [] [] [] [] [] []]. Qed.

Lemma field_char_nonspace (c : ascii) :
  field_char c = true → negb (isspace c) = true.
Proof. unfold field_char. rewrite andb_true_iff. by intros [? ?]. Qed.

Lemma field_char_not_sep (c : ascii) :
  field_char c = true → negb (Ascii.eqb c "=") = true.
Proof. unfold field_char. rewrite andb_true_iff. by intros [? ?]. Qed.

Lemma field_value_field (key v : string) :
  all_chars field_char key = true → all_chars field_char v = true →
  field_value ((key +:+ String "=" v) +:+ String LF "") = mret v.
Proof.
  intros Hk Hv. unfold field_value. rewrite strip_line.
  - rewrite split_app, split_no_sep; [done|..];
      by eapply all_chars_impl; [apply field_char_not_sep|].
  - rewrite all_chars_app. simpl.
    rewrite (all_chars_impl _ _ _ field_char_nonspace Hk).
    by rewrite (all_chars_impl _ _ _ field_char_nonspace Hv).
Qed.

Lemma py_str_field (z : Z) : all_chars field_char (py_str z) = true.
Proof. generalize (py_str_numeric z). apply all_chars_impl, numeric_field_char. Qed.

Lemma py_str_line (z : Z) : all_chars line_char (py_str z) = true.
Proof. generalize (py_str_numeric z). apply all_chars_impl, numeric_line_char. Qed.

Lemma range_text_lines (low high : Z) :
  readlines (range_text low high)
  = [("low" +:+ String "=" (py_str low)) +:+ String LF "";
     ("high" +:+ String "=" (py_str high)) +:+ String LF ""].
Proof.
  change (range_text low high) with
    (writelines [("low=" +:+ py_str low) +:+ String LF "";
                 ("high=" +:+ py_str high) +:+ String LF ""]).
  rewrite readlines_two; [done|..]; rewrite all_chars_app, py_str_line; done.
Qed.

Lemma range_scan_range_text (low high : Z) :
  range_scan (rev (readlines (range_text low high))) None None
  = mret (Some low, Some high).
Proof.
  rewrite range_text_lines. cbn [rev app range_scan].
  change (startswith (("high" +:+ String "=" (py_str high)) +:+ String LF "") "low=")
    with false.
  change (startswith (("high" +:+ String "=" (py_str high)) +:+ String LF "") "high=")
    with true.
  change (startswith (("low" +:+ String "=" (py_str low)) +:+ String LF "") "low=")
    with true.
  cbv iota. rewrite !field_value_field by (reflexivity || apply py_str_field).
  repeat first [rewrite mret_bind | rewrite int_py_str
               | progress cbn [is_not_None andb]].
  done.
Qed.


Lemma update_run_state_run (b s rs : string) st :
  update_run_state b s rs st
  = (Ret tt, set_files (<[run_state_path b s := rs]> (files st)) st).
Proof.
  unfold update_run_state, write_lines_to_file, modify, writelines.
  cbn [fold_right]. by rewrite append_nil_r.
Qed.

Lemma get_bisect_range_written (b s : string) (low high : Z) st :
  files st !! bisect_range_path b s = Some (range_text low high) →
  get_bisect_range b s st = (Ret (low, high), st).
Proof.
  intros Hf. unfold get_bisect_range.
  rewrite (read_lines_file _ _ _ _ Hf), range_scan_range_text, mret_bind. done.
Qed.

Lemma get_bisect_range_missing (b s : string) st :
  files st !! bisect_range_path b s = None →
  is_directory (files st) (bisect_range_path b s) = false →
  get_bisect_range b s st
  = (Raise (RuntimeError
       ("Trying to get bisect range when it is not set: subsystem " +:+ s)), st).
Proof.
  intros Hf Hd. unfold get_bisect_range.
  by rewrite (read_lines_absent _ _ _ Hf Hd).
Qed.

Lemma get_bisect_range_directory (b s : string) st :
  files st !! bisect_range_path b s = None →
  is_directory (files st) (bisect_range_path b s) = true →
  get_bisect_range b s st
  = (Raise (IsADirectoryError (bisect_range_path b s)), st).
Proof.
  intros Hf Hd. unfold get_bisect_range.
  by rewrite (read_lines_directory _ _ _ Hf Hd).
Qed.

(** Without a record, the read fails one way or the other. *)
Lemma get_bisect_range_no_record (b s : string) st :
  files st !! bisect_range_path b s = None →
  get_bisect_range b s st
  = (Raise (if is_directory (files st) (bisect_range_path b s)
            then IsADirectoryError (bisect_range_path b s)
            else RuntimeError
                   ("Trying to get bisect range when it is not set: subsystem "
                    +:+ s)), st).
Proof.
  intros Hf. destruct (is_directory _ _) eqn:Hd.
  - by apply get_bisect_range_directory.
  - by apply get_bisect_range_missing.
Qed.

Lemma readlines_word (w : string) :
  all_chars (λ c, negb (isspace c)) w = true → w ≠ "" → readlines w = [w].
Proof.
  intros Hw Hne.
  assert (Hl : all_chars line_char w = true)
    by (revert Hw; apply all_chars_impl, nonspace_line_char).
  unfold readlines. rewrite translate_newlines_id, keepends_single; [done| |done|].
  - revert Hl. apply all_chars_impl. intros c. unfold line_char.
    rewrite andb_true_iff. by intros [? ?].
  - revert Hl. apply all_chars_impl. intros c. unfold line_char.
    rewrite andb_true_iff. by intros [? ?].
Qed.

Lemma strip_word (w : string) :
  all_chars (λ c, negb (isspace c)) w = true → strip w = w.
Proof.
  intros Hw. unfold strip. rewrite <- (append_nil_r w) at 1.
  rewrite rstrip_app_space by done. by apply lstrip_all_nonspace.
Qed.

Lemma get_run_state_written (b s rs : string) st :
  files st !! run_state_path b s = Some rs →
  all_chars (λ c, negb (isspace c)) rs = true →
  get_run_state b s st = (Ret rs, st).
Proof.
  intros Hf Hrs. unfold get_run_state.
  rewrite (read_lines_file _ _ _ _ Hf).
  destruct (decide (rs = "")) as [->|Hne]; [done|].
  rewrite readlines_word by done. by rewrite strip_word.
Qed.

Lemma get_run_state_missing (b s : string) st :
  files st !! run_state_path b s = None →
  is_directory (files st) (run_state_path b s) = false →
  get_run_state b s st = (Ret "", st).
Proof.
  intros Hf Hd. unfold get_run_state.
  by rewrite (read_lines_absent _ _ _ Hf Hd).
Qed.

(** A Run State that is not empty was read from a file. *)
Lemma get_run_state_exists (b s rs : string) st :
  get_run_state b s st = (Ret rs, st) → rs ≠ "" →
  is_Some (files st !! run_state_path b s).
Proof.
  intros Hrs Hne. destruct (files st !! run_state_path b s) eqn:Hf; [done|].
  destruct (is_directory (files st) (run_state_path b s)) eqn:Hd.
  - unfold get_run_state in Hrs.
    by rewrite (read_lines_directory _ _ _ Hf Hd) in Hrs.
  - rewrite (get_run_state_missing b s st Hf Hd) in Hrs. congruence.
Qed.

(** The two records of a pair lie side by side. *)
Lemma record_paths_base (b s : string) :
  ∃ X, run_state_path b s = X +:+ "_run_state.txt"
       ∧ bisect_range_path b s = X +:+ "_bisect_range.txt".
Proof.
  unfold run_state_path, bisect_range_path, os_path_join. cbn [fold_left].
  set (P := join_step get_dir b). unfold join_step.
  destruct s as [|c s].
  - rewrite !append_nil_l.
    change (startswith "_run_state.txt" "/") with false.
    change (startswith "_bisect_range.txt" "/") with false. cbv iota.
    destruct (_ || _); [by exists P|].
    exists (P +:+ "/"). by rewrite !append_assoc.
  - rewrite !append_cons, !startswith_cons.
    change (startswith (s +:+ "_run_state.txt") "") with true.
    change (startswith (s +:+ "_bisect_range.txt") "") with true.
    rewrite andb_true_r. destruct (Ascii.eqb "/" c).
    + exists (String c s). by rewrite !append_cons.
    + destruct (_ || _).
      * exists (P +:+ String c s). by rewrite <- !append_cons, !append_assoc.
      * exists (P +:+ "/" +:+ String c s).
        by rewrite <- !append_cons, !append_assoc.
Qed.

(** Writing the Range of a pair whose Run State is recorded leaves what
    lies at every other path, and conversely. *)
Lemma path_entry_write_range (fs : gmap string string) (b s v path : string) :
  is_Some (fs !! run_state_path b s) → path ≠ bisect_range_path b s →
  path_entry (<[bisect_range_path b s := v]> fs) path = path_entry fs path.
Proof.
  destruct (record_paths_base b s) as (X & -> & ->).
  by apply path_entry_sibling.
Qed.

Lemma path_entry_write_run_state (fs : gmap string string) (b s v path : string) :
  is_Some (fs !! bisect_range_path b s) → path ≠ run_state_path b s →
  path_entry (<[run_state_path b s := v]> fs) path = path_entry fs path.
Proof.
  destruct (record_paths_base b s) as (X & -> & ->).
  by apply path_entry_sibling.
Qed.

(** ** The guard hook *)

Lemma disable_subsystem_disabled (b s : string) d st :
  bisection_enabled st = false → disable_subsystem b s d st = (Ret false, st).
Proof. intros H. unfold disable_subsystem. by rewrite gets_bind, H. Qed.

Lemma disable_subsystem_other (b s b' s' : string) d st :
  bisection_enabled st = true →
  get_backend st = (Ret b, st) → get_subsystem st = (Ret s, st) →
  site_of b s (CallSite b' s' d) = false →
  disable_subsystem b' s' d st = (Ret false, st).
Proof.
  intros Hen Hb Hs Hne. unfold disable_subsystem.
  rewrite gets_bind, Hen. cbn [negb].
  rewrite (bind_ret _ _ _ _ _ Hb).
  unfold site_of in Hne. cbn in Hne.
  destruct (String.eqb_spec b b') as [->|Hbb].
  - rewrite String.eqb_refl in Hne. cbn in Hne. cbn [negb].
    rewrite (bind_ret _ _ _ _ _ Hs), (String.eqb_sym s s'), Hne. done.
  - done.
Qed.

(** Entering the state machine of the guard: bisection is on, the
    cursor matches and there is no override. *)
Ltac guard_enter Hact :=
  let Hen := fresh "Hen" in
  let Hb := fresh "Hb" in
  let Hs := fresh "Hs" in
  let Hmax := fresh "Hmax" in
  destruct Hact as (Hen & Hb & Hs & Hmax);
  unfold disable_subsystem;
  rewrite gets_bind, Hen; cbn [negb];
  rewrite (bind_ret _ _ _ _ _ Hb), String.eqb_refl; cbn [negb];
  rewrite (bind_ret _ _ _ _ _ Hs), String.eqb_refl; cbn [negb];
  unfold max_override in Hmax;
  destruct (get_env_val "TORCH_BISECT_MAX") as [?val|]; [rewrite Hmax|];
  cbv zeta.

Lemma disable_subsystem_test_disable (b s : string) d st :
  guard_active b s st → get_run_state b s st = (Ret "test_disable", st) →
  disable_subsystem b s d st = (Ret true, st).
Proof.
  intros Hact Hrs. guard_enter Hact; by rewrite (bind_ret _ _ _ _ _ Hrs).
Qed.

Lemma disable_subsystem_find_max_bounds (b s : string) d st :
  guard_active b s st → get_run_state b s st = (Ret "find_max_bounds", st) →
  disable_subsystem b s d st
  = (Ret false,
     set_files
       (<[bisect_range_path b s := range_text 0 (counter_value s st)]> (files st))
       (set_subsystem_call_counter
          (<[s := counter_value s st + 1]> (subsystem_call_counter st)) st)).
Proof.
  intros Hact Hrs. guard_enter Hact; by rewrite (bind_ret _ _ _ _ _ Hrs).
Qed.

Lemma disable_subsystem_bisect (b s rs : string) (low high : Z) d st :
  guard_active b s st → get_run_state b s st = (Ret rs, st) →
  rs ≠ "test_disable" → rs ≠ "find_max_bounds" →
  get_bisect_range b s st = (Ret (low, high), st) →
  disable_subsystem b s d st
  = (Ret ((low + high) `div` 2 <? counter_value s st),
     after_bisect_call s low high d st).
Proof.
  intros Hact Hrs Hn1 Hn2 Hrange.
  apply String.eqb_neq in Hn1, Hn2.
  guard_enter Hact; rewrite (bind_ret _ _ _ _ _ Hrs), Hn1, Hn2;
    rewrite (bind_ret _ _ _ _ _ Hrange); cbv beta iota;
    rewrite get_system_counter_bind; unfold after_bisect_call; cbv zeta;
    destruct d as [producer|]; cbn [is_not_None];
    rewrite ?andb_true_r, ?andb_false_r;
    try destruct (_ && _ && _); reflexivity.
Qed.

Lemma disable_subsystem_no_range (b s rs : string) e d st :
  guard_active b s st → get_run_state b s st = (Ret rs, st) →
  rs ≠ "test_disable" → rs ≠ "find_max_bounds" →
  get_bisect_range b s st = (Raise e, st) →
  disable_subsystem b s d st = (Raise e, st).
Proof.
  intros Hact Hrs Hn1 Hn2 Hrange.
  apply String.eqb_neq in Hn1, Hn2.
  guard_enter Hact; rewrite (bind_ret _ _ _ _ _ Hrs), Hn1, Hn2;
    by rewrite (bind_raise _ _ _ _ _ Hrange).
Qed.

Lemma guard_active_frame (b s : string) st st' :
  path_entry (files st') bisect_status_path
  = path_entry (files st) bisect_status_path →
  bisection_enabled st' = bisection_enabled st →
  guard_active b s st → guard_active b s st'.
Proof.
  intros Hf Hen (Hen0 & Hb & Hs & Hmax). split_and!; [congruence| | |done].
  - by eapply reads_file_run; [apply get_backend_reads|..].
  - by eapply reads_file_run; [apply get_subsystem_reads|..].
Qed.

Lemma get_run_state_frame (b s : string) st st' o :
  path_entry (files st') (run_state_path b s)
  = path_entry (files st) (run_state_path b s) →
  get_run_state b s st = (o, st) → get_run_state b s st' = (o, st').
Proof. intros Hf H. by eapply reads_file_run; [apply get_run_state_reads|..]. Qed.

Lemma get_bisect_range_frame (b s : string) st st' o :
  path_entry (files st') (bisect_range_path b s)
  = path_entry (files st) (bisect_range_path b s) →
  get_bisect_range b s st = (o, st) → get_bisect_range b s st' = (o, st').
Proof. intros Hf H. by eapply reads_file_run; [apply get_bisect_range_reads|..]. Qed.

Lemma get_run_state_same_state (b s : string) st : (get_run_state b s st).2 = st.
Proof. apply (reads_file_state (run_state_path b s)), get_run_state_reads. Qed.

Lemma get_bisect_range_same_state (b s : string) st :
  (get_bisect_range b s st).2 = st.
Proof. apply (reads_file_state (bisect_range_path b s)), get_bisect_range_reads. Qed.

Lemma after_bisect_call_files (s : string) low high d st :
  files (after_bisect_call s low high d st) = files st.
Proof. unfold after_bisect_call. by repeat case_match. Qed.

Lemma after_bisect_call_enabled (s : string) low high d st :
  bisection_enabled (after_bisect_call s low high d st) = bisection_enabled st.
Proof. unfold after_bisect_call. by repeat case_match. Qed.

Lemma after_bisect_call_probes (s : string) low high d st :
  probes (after_bisect_call s low high d st) = probes st.
Proof. unfold after_bisect_call. by repeat case_match. Qed.

Lemma after_bisect_call_counter (s : string) low high d st :
  counter_value s (after_bisect_call s low high d st) = counter_value s st + 1.
Proof.
  unfold after_bisect_call, counter_value.
  repeat case_match; cbn; by rewrite lookup_insert_eq.
Qed.

(** ** Probes made of guarded call-sites *)

Lemma run_sites_cons (site : call_site) (rest : list call_site) st d st1 :
  disable_subsystem (site_backend site) (site_subsystem site)
    (site_debug_info site) st = (Ret d, st1) →
  run_sites (site :: rest) st
  = match run_sites rest st1 with
    | (Ret ds, st2) => (Ret (d :: ds), st2)
    | (Raise e, st2) => (Raise e, st2)
    | (OutOfFuel, st2) => (OutOfFuel, st2)
    end.
Proof.
  intros H. cbn [run_sites]. rewrite (bind_ret _ _ _ _ _ H).
  unfold mbind, M_bind, bind. by destruct (run_sites rest st1) as [[ds|e|] st2].
Qed.

Lemma site_of_eq (b s : string) (site : call_site) :
  site_of b s site = true → site_backend site = b ∧ site_subsystem site = s.
Proof.
  unfold site_of. rewrite andb_true_iff, !String.eqb_eq. by intros [? ?].
Qed.

(** In [find_max_bounds] no call is suppressed; each call of the
    subsystem overwrites the Range with [[0, c]], [c] the value of the
    counter it read. *)
Lemma run_sites_find_max_bounds (b s : string) (sites : list call_site) st :
  guard_active b s st → get_run_state b s st = (Ret "find_max_bounds", st) →
  ∃ st', run_sites sites st = (Ret (repeat false (length sites)), st')
    ∧ bisection_enabled st' = bisection_enabled st
    ∧ probes st' = probes st
    ∧ (∀ p, p ≠ bisect_range_path b s → files st' !! p = files st !! p)
    ∧ counter_value s st' = counter_value s st + Z.of_nat (fires b s sites)
    ∧ (fires b s sites = 0%nat → files st' = files st)
    ∧ (fires b s sites ≠ 0%nat →
       files st' !! bisect_range_path b s
       = Some (range_text 0 (counter_value s st' - 1)))
    ∧ (∀ p, p ≠ bisect_range_path b s →
         path_entry (files st') p = path_entry (files st) p).
Proof.
  revert st. induction sites as [|site rest IH]; intros st Hact Hrs.
  { exists st. cbn. split_and!; try done. lia. }
  cbn [fires length repeat].
  destruct (site_of b s site) eqn:Hsite.
  - apply site_of_eq in Hsite as [Hsb Hss].
    destruct site as [b' s' d]. cbn in Hsb, Hss. subst b' s'.
    pose proof (disable_subsystem_find_max_bounds b s d st Hact Hrs) as Hcall.
    rewrite (run_sites_cons (CallSite b s d) _ _ _ _ Hcall).
    set (st1 := set_files _ _) in *.
    assert (Hother : ∀ p, p ≠ bisect_range_path b s →
              files st1 !! p = files st !! p).
    { intros p Hp. subst st1. cbn. by rewrite lookup_insert_ne. }
    assert (Hentry : ∀ p, p ≠ bisect_range_path b s →
              path_entry (files st1) p = path_entry (files st) p).
    { intros p Hp. subst st1. cbn. apply path_entry_write_range; [|done].
      by apply (get_run_state_exists b s "find_max_bounds"). }
    destruct (IH st1)
      as (st' & Hrun & Hen & Hpr & Hfr & Hcnt & Hsame & Hrange & Hentries).
    { eapply guard_active_frame; [| |exact Hact]; [|done].
      apply Hentry. apply not_eq_sym, bisect_range_path_ne_status. }
    { eapply get_run_state_frame; [|exact Hrs].
      apply Hentry. apply run_state_path_ne_range. }
    assert (Hc1 : counter_value s st1 = counter_value s st + 1).
    { subst st1. unfold counter_value at 1. cbn. by rewrite lookup_insert_eq. }
    exists st'. rewrite Hrun. split_and!; try done.
    + intros p Hp. rewrite Hfr by done. by apply Hother.
    + rewrite Hcnt, Hc1. lia.
    + intros _. destruct (decide (fires b s rest = 0%nat)) as [H0|Hpos].
      * rewrite Hcnt, H0, Hc1, (Hsame H0).
        replace (counter_value s st + 1 + Z.of_nat 0 - 1)
          with (counter_value s st) by lia.
        subst st1. cbn. by rewrite lookup_insert_eq.
      * by apply Hrange.
    + intros p Hp. rewrite Hentries by done. by apply Hentry.
  - assert (Hcall : disable_subsystem (site_backend site) (site_subsystem site)
                      (site_debug_info site) st = (Ret false, st)).
    { destruct Hact as (Hen & Hb & Hs & _), site as [b' s' d].
      by apply (disable_subsystem_other b s). }
    rewrite (run_sites_cons _ _ _ _ _ Hcall).
    destruct (IH st Hact Hrs) as (st' & Hrun & Hrest).
    exists st'. by rewrite Hrun.
Qed.

(** In the third branch of the guard the calls of the subsystem with
    an index above the midpoint are suppressed, and no file changes. *)
Lemma run_sites_bisect (b s rs : string) (low high : Z)
    (sites : list call_site) st :
  guard_active b s st → get_run_state b s st = (Ret rs, st) →
  rs ≠ "test_disable" → rs ≠ "find_max_bounds" →
  get_bisect_range b s st = (Ret (low, high), st) →
  ∃ st', run_sites sites st
         = (Ret (suppress_pattern b s ((low + high) `div` 2)
                   (counter_value s st) sites), st')
    ∧ files st' = files st
    ∧ bisection_enabled st' = bisection_enabled st
    ∧ probes st' = probes st
    ∧ counter_value s st' = counter_value s st + Z.of_nat (fires b s sites).
Proof.
  intros Hact Hrs Hn1 Hn2 Hrange. revert st Hact Hrs Hrange.
  induction sites as [|site rest IH]; intros st Hact Hrs Hrange.
  { exists st. cbn. split_and!; try done. lia. }
  cbn [fires suppress_pattern].
  destruct (site_of b s site) eqn:Hsite.
  - apply site_of_eq in Hsite as [Hsb Hss].
    destruct site as [b' s' d]. cbn in Hsb, Hss. subst b' s'.
    pose proof (disable_subsystem_bisect b s rs low high d st
                  Hact Hrs Hn1 Hn2 Hrange) as Hcall.
    rewrite (run_sites_cons (CallSite b s d) _ _ _ _ Hcall).
    set (st1 := after_bisect_call s low high d st) in *.
    assert (Hf1 : files st1 = files st) by apply after_bisect_call_files.
    destruct (IH st1) as (st' & Hrun & Hf & Hen & Hpr & Hcnt).
    { eapply guard_active_frame; [| |exact Hact];
        [by rewrite Hf1|apply after_bisect_call_enabled]. }
    { eapply get_run_state_frame; [|exact Hrs]. by rewrite Hf1. }
    { eapply get_bisect_range_frame; [|exact Hrange]. by rewrite Hf1. }
    assert (Hc1 : counter_value s st1 = counter_value s st + 1)
      by apply after_bisect_call_counter.
    exists st'. rewrite Hrun, Hc1. split_and!.
    + done.
    + by rewrite Hf.
    + rewrite Hen. apply after_bisect_call_enabled.
    + rewrite Hpr. apply after_bisect_call_probes.
    + rewrite Hcnt, Hc1. lia.
  - assert (Hcall : disable_subsystem (site_backend site) (site_subsystem site)
                      (site_debug_info site) st = (Ret false, st)).
    { destruct Hact as (Hen & Hb & Hs & _), site as [b' s' d].
      by apply (disable_subsystem_other b s). }
    rewrite (run_sites_cons _ _ _ _ _ Hcall).
    destruct (IH st Hact Hrs Hrange) as (st' & Hrun & Hrest).
    exists st'. by rewrite Hrun.
Qed.

(** ** One turn of [perform_bisection] *)

Lemma body_enter {B} (b s rs : string) (k : string → M B) st :
  get_run_state b s st = (Ret rs, st) →
  (run_state ← get_run_state b s; _ ← reset_counters; k run_state) st
  = k rs (cleared st).
Proof. intros Hrs. by rewrite (bind_ret _ _ _ _ _ Hrs). Qed.

Lemma call_fn_run (fn : M bool) st : call_fn fn (cleared st) = fn (probe_state st).
Proof. reflexivity. Qed.

Lemma body_find_max_bounds_true (b s : string) (fn : M bool) st st1 :
  get_run_state b s st = (Ret "find_max_bounds", st) →
  fn (probe_state st) = (Ret true, st1) →
  perform_bisection_body b s fn st
  = (Raise (RuntimeError
       ("Function succeeded with 'find_max_bounds' status for "
        +:+ b +:+ " - " +:+ s +:+ ".")), st1).
Proof.
  intros Hrs Hfn. unfold perform_bisection_body.
  rewrite (body_enter _ _ _ _ _ Hrs). cbn [String.eqb Ascii.eqb Bool.eqb].
  rewrite <- call_fn_run in Hfn. by rewrite (bind_ret _ _ _ _ _ Hfn).
Qed.


Lemma body_bisect (b s : string) (fn : M bool) st st1 low high ok :
  get_run_state b s st = (Ret "bisect", st) →
  get_bisect_range b s st = (Ret (low, high), st) →
  fn (probe_state st) = (Ret ok, st1) →
  perform_bisection_body b s fn st
  = (Ret (if (narrowed low high ok).1 =? (narrowed low high ok).2
          then inr true else inl s),
     set_files
       (<[bisect_range_path b s
          := range_text (narrowed low high ok).1 (narrowed low high ok).2]>
          (files st1)) st1).
Proof.
  intros Hrs Hrange Hfn. unfold perform_bisection_body.
  rewrite (body_enter _ _ _ _ _ Hrs). cbn [String.eqb Ascii.eqb Bool.eqb].
  assert (Hrange' : get_bisect_range b s (cleared st) = (Ret (low, high), cleared st))
    by (by eapply get_bisect_range_frame; [|exact Hrange]).
  rewrite (bind_ret _ _ _ _ _ Hrange').
  rewrite <- call_fn_run in Hfn. rewrite (bind_ret _ _ _ _ _ Hfn).
  set (r := narrowed low high ok).
  assert (Hupd : (if ok
                  then update_bisect_range b s ((low + high) `div` 2 + 1) high
                  else update_bisect_range b s low ((low + high) `div` 2)) st1
                 = (Ret tt, set_files
                      (<[bisect_range_path b s := range_text r.1 r.2]> (files st1)) st1)).
  { subst r. unfold narrowed. by destruct ok. }
  rewrite (bind_ret _ _ _ _ _ Hupd).
  erewrite bind_ret; [|apply get_bisect_range_written; cbn; apply lookup_insert_eq].
  cbv beta iota. by destruct (r.1 =? r.2).
Qed.

(** ** The Global Cursor is always a string *)








Lemma get_subsystem_directory st :
  path_entry (files st) bisect_status_path = Directory →
  subsystem_override = false →
  get_subsystem st = (Raise (IsADirectoryError bisect_status_path), st).
Proof.
  intros Hdir Henv. unfold get_subsystem, subsystem_override in *.
  assert ((read_lines_from_file bisect_status_path ≫= first_field "subsystem=") st
          = (Raise (IsADirectoryError bisect_status_path), st)) as Hfile.
  { unfold read_lines_from_file.
    unfold mbind at 1, M_bind at 1, bind at 1. by rewrite gets_bind, Hdir. }
  destruct (get_env_val "TORCH_BISECT_SUBSYSTEM") as [val|]; [|done].
  by rewrite Henv.
Qed.

(** The other side of C8: where the path of the cursor is a directory
    and no override names the subsystem, the import of the module fails
    and [bisection_enabled] is not assigned. *)
Lemma module_init_directory st :
  path_entry (files st) bisect_status_path = Directory →
  subsystem_override = false →
  get_is_bisection_enabled st
  = (Raise (IsADirectoryError bisect_status_path), st)
  ∧ module_init st = (Raise (IsADirectoryError bisect_status_path), st).
Proof.
  intros Hdir Henv.
  assert (Hen : get_is_bisection_enabled st
                = (Raise (IsADirectoryError bisect_status_path), st)).
  { unfold get_is_bisection_enabled.
    by rewrite (bind_raise _ _ _ _ _ (get_subsystem_directory st Hdir Henv)). }
  split; [done|]. unfold module_init. by rewrite (bind_raise _ _ _ _ _ Hen).
Qed.


(** ** Missing state *)

(** C9.  When no Range was ever persisted for [(backend, subsystem)],
    that is, its record does not exist, [get_bisect_range] raises an
    error and returns no default value: a [RuntimeError], or the
    [IsADirectoryError] of the read where the path of the record is a
    directory. *)
Theorem C9_range_query_before_persisted (b s : string) st :
  files st !! bisect_range_path b s = None →
  ∃ msg, get_bisect_range b s st
         = (Raise (if is_directory (files st) (bisect_range_path b s)
                   then IsADirectoryError (bisect_range_path b s)
                   else RuntimeError msg), st).
Proof. intros H. eexists. by apply get_bisect_range_no_record. Qed.

(** ** The guard decision *)

(** C4.  With bisection enabled, the cursor at [(backend, subsystem)],
    no maximum-count override, Run State [bisect] and Range
    [(low, high)], a call of the guard answers [True] exactly when the
    counter value it reads is above [(low + high) // 2], and the read
    increments the counter by one. *)
Theorem C4_bisect_guard_suppresses_above_midpoint (b s : string) d low high st :
  guard_active b s st → get_run_state b s st = (Ret "bisect", st) →
  get_bisect_range b s st = (Ret (low, high), st) →
  ∃ r st', disable_subsystem b s d st = (Ret r, st')
    ∧ (r = true ↔ counter_value s st > (low + high) `div` 2)
    ∧ counter_value s st' = counter_value s st + 1.
Proof.
  intros Hact Hrs Hrange.
  eexists _, _. split_and!.
  - by apply (disable_subsystem_bisect b s "bisect" low high).
  - rewrite Z.ltb_lt. lia.
  - apply after_bisect_call_counter.
Qed.

(** C6, as the code has it.  With bisection enabled, the cursor at
    [(backend, subsystem)] and no maximum-count override, a persisted
    Run State other than [test_disable] and [find_max_bounds] (be it
    [bisect], unrecognised, or absent) sends the guard into its last
    branch: it raises a [RuntimeError] when no Range is persisted (the
    [IsADirectoryError] of the read where the path of the Range is a
    directory), and otherwise answers whether the counter is above the
    midpoint. *)
Theorem C6_guard_other_run_state (b s rs : string) d st :
  guard_active b s st → get_run_state b s st = (Ret rs, st) →
  rs ≠ "test_disable" → rs ≠ "find_max_bounds" →
  (files st !! bisect_range_path b s = None →
     ∃ msg, disable_subsystem b s d st
            = (Raise (if is_directory (files st) (bisect_range_path b s)
                      then IsADirectoryError (bisect_range_path b s)
                      else RuntimeError msg), st))
  ∧ (∀ low high, get_bisect_range b s st = (Ret (low, high), st) →
     ∃ st', disable_subsystem b s d st
            = (Ret ((low + high) `div` 2 <? counter_value s st), st')).
Proof.
  intros Hact Hrs Hn1 Hn2. split.
  - intros Hnone. eexists.
    apply (disable_subsystem_no_range b s rs); try done.
    by apply get_bisect_range_no_record.
  - intros low high Hrange. eexists.
    by apply (disable_subsystem_bisect b s rs low high).
Qed.

(** ** The state machine *)

Lemma perform_bisection_return (fuel : nat) (b s : string) (fn : M bool)
    (cli : bool) st r st' :
  perform_bisection_body b s fn st = (Ret (inr r), st') →
  perform_bisection (S fuel) b s fn cli st = (Ret r, st').
Proof. intros H. cbn [perform_bisection]. by rewrite (bind_ret _ _ _ _ _ H). Qed.

Lemma perform_bisection_raise (fuel : nat) (b s : string) (fn : M bool)
    (cli : bool) st e st' :
  perform_bisection_body b s fn st = (Raise e, st') →
  perform_bisection (S fuel) b s fn cli st = (Raise e, st').
Proof. intros H. cbn [perform_bisection]. by rewrite (bind_raise _ _ _ _ _ H). Qed.

Lemma perform_bisection_continue (fuel : nat) (b s s' : string) (fn : M bool)
    st st' :
  perform_bisection_body b s fn st = (Ret (inl s'), st') →
  perform_bisection (S fuel) b s fn false st
  = perform_bisection fuel b s' fn false st'.
Proof. intros H. cbn [perform_bisection]. by rewrite (bind_ret _ _ _ _ _ H). Qed.

Lemma perform_bisection_exit (fuel : nat) (b s s' : string) (fn : M bool)
    st st' :
  perform_bisection_body b s fn st = (Ret (inl s'), st') →
  perform_bisection (S fuel) b s fn true st = (Raise (SystemExit 0), st').
Proof. intros H. cbn [perform_bisection]. by rewrite (bind_ret _ _ _ _ _ H). Qed.

Lemma probe_state_files st : files (probe_state st) = files st.
Proof. reflexivity. Qed.

Lemma probe_state_counter (s : string) st : counter_value s (probe_state st) = 0.
Proof. unfold counter_value. cbn. by rewrite lookup_empty. Qed.


(** The other case of [find_max_bounds]: a call-site that never fires
    writes no Range, and with none persisted before, the turn ends in
    the error of [get_bisect_range] (a [RuntimeError], unless the path
    of the Range is a directory); the Run State stays. *)
Lemma find_max_bounds_without_calls (b s : string) (sites : list call_site)
    (verdict : list bool → bool) st :
  guard_active b s st → get_run_state b s st = (Ret "find_max_bounds", st) →
  fires b s sites = 0%nat → verdict (repeat false (length sites)) = false →
  files st !! bisect_range_path b s = None →
  ∃ msg st',
    perform_bisection_body b s (run_workload sites verdict) st
    = (Raise (if is_directory (files st) (bisect_range_path b s)
              then IsADirectoryError (bisect_range_path b s)
              else RuntimeError msg), st')
    ∧ get_run_state b s st' = (Ret "find_max_bounds", st').
Proof.
  intros Hact Hrs Hfires Hverdict Hnone.
  destruct (run_sites_find_max_bounds b s sites (probe_state st))
    as (st1 & Hrun & _ & _ & _ & _ & Hsame & _).
  { by eapply guard_active_frame; [| |exact Hact]. }
  { by eapply get_run_state_frame; [|exact Hrs]. }
  specialize (Hsame Hfires). rewrite probe_state_files in Hsame.
  assert (Hfn : call_fn (run_workload sites verdict) (cleared st) = (Ret false, st1)).
  { rewrite call_fn_run. unfold run_workload.
    by rewrite (bind_ret _ _ _ _ _ Hrun), Hverdict. }
  eexists _, st1. split.
  - unfold perform_bisection_body.
    rewrite (body_enter _ _ _ _ _ Hrs). cbn [String.eqb Ascii.eqb Bool.eqb].
    rewrite (bind_ret _ _ _ _ _ Hfn). apply bind_raise.
    rewrite <- Hsame. apply get_bisect_range_no_record. by rewrite Hsame.
  - eapply get_run_state_frame; [|exact Hrs]. by rewrite Hsame.
Qed.

(** C7.  In Run State [find_max_bounds], when the probe [fn()] returns
    true, [perform_bisection] raises a [RuntimeError]; it writes
    nothing after the probe (the state left is the one the probe
    left), so the Run State is not advanced to [bisect]: where the
    probe did not touch the record it still reads [find_max_bounds]. *)
Theorem C7_find_max_bounds_contract_violation (fuel : nat) (b s : string)
    (fn : M bool) (cli : bool) st st1 :
  get_run_state b s st = (Ret "find_max_bounds", st) →
  fn (probe_state st) = (Ret true, st1) →
  ∃ msg, perform_bisection (S fuel) b s fn cli st = (Raise (RuntimeError msg), st1)
    ∧ (files st1 !! run_state_path b s = files st !! run_state_path b s →
       get_run_state b s st1 = (Ret "find_max_bounds", st1)).
Proof.
  intros Hrs Hfn. eexists. split.
  - apply perform_bisection_raise. by apply body_find_max_bounds_true.
  - intros Hsame. eapply get_run_state_frame; [|exact Hrs].
    apply path_entry_same_file; [|done].
    by apply (get_run_state_exists b s "find_max_bounds").
Qed.

Lemma narrowed_fst (low high : Z) (ok : bool) :
  (narrowed low high ok).1 = if ok then (low + high) `div` 2 + 1 else low.
Proof. unfold narrowed. by destruct ok. Qed.

Lemma narrowed_snd (low high : Z) (ok : bool) :
  (narrowed low high ok).2 = if ok then high else (low + high) `div` 2.
Proof. unfold narrowed. by destruct ok. Qed.


(** ** The binary search *)

(** One turn of the [bisect] phase under a workload. *)
Lemma bisect_turn (b s : string) (sites : list call_site)
    (verdict : list bool → bool) (low high : Z) st :
  bisecting b s low high st →
  let ok := verdict (suppress_pattern b s ((low + high) `div` 2) 0 sites) in
  let r := narrowed low high ok in
  ∃ st2,
    perform_bisection_body b s (run_workload sites verdict) st
    = (Ret (if r.1 =? r.2 then inr true else inl s), st2)
    ∧ bisecting b s r.1 r.2 st2
    ∧ probes st2 = S (probes st).
Proof.
  intros (Hact & Hrs & Hrange) ok r.
  destruct (run_sites_bisect b s "bisect" low high sites (probe_state st))
    as (st1 & Hrun & Hf & Hen & Hpr & _); try done.
  { by eapply guard_active_frame; [| |exact Hact]. }
  { by eapply get_run_state_frame; [|exact Hrs]. }
  { by eapply get_bisect_range_frame; [|exact Hrange]. }
  rewrite probe_state_counter in Hrun.
  assert (Hfn : run_workload sites verdict (probe_state st) = (Ret ok, st1)).
  { unfold run_workload. by rewrite (bind_ret _ _ _ _ _ Hrun). }
  pose proof (body_bisect b s _ st st1 low high ok Hrs Hrange Hfn) as Hbody.
  fold r in Hbody. set (st2 := set_files _ st1) in Hbody.
  exists st2. split_and!; [done| |done].
  split_and!.
  - eapply guard_active_frame; [| |exact Hact].
    + subst st2. cbn. rewrite Hf. apply path_entry_write_range.
      * by apply (get_run_state_exists b s "bisect").
      * apply not_eq_sym, bisect_range_path_ne_status.
    + by subst st2.
  - eapply get_run_state_frame; [|exact Hrs].
    subst st2. cbn. rewrite Hf. apply path_entry_write_range.
    + by apply (get_run_state_exists b s "bisect").
    + apply run_state_path_ne_range.
  - apply get_bisect_range_written. subst st2. cbn. apply lookup_insert_eq.
Qed.

(** The loop on a Range with at least two candidates, by induction on
    its width.  [q] is [2 ^ (k - 1)] for the number [k] of probes. *)
Lemma bisect_loop (b s : string) (sites : list call_site)
    (verdict : list bool → bool) (N c : Z) :
  (∀ m, 0 ≤ m ≤ N → verdict (suppress_pattern b s m 0 sites) = (m <? c)) →
  ∀ (w : nat) (low high : Z) st,
    Z.to_nat (high - low) = w → 0 ≤ low → high ≤ N → low ≤ c ≤ high → low < high →
    bisecting b s low high st →
    ∃ k, 1 ≤ k ∧ 2 ^ (k - 1) < high - low + 1 < 4 * 2 ^ (k - 1)
         ∧ bisect_ends_at b s sites verdict st c k.
Proof.
  intros Hmono w. induction (lt_wf w) as [w _ IH].
  intros low high st Hw Hlow Hhigh Hc Hlt Hinv.
  destruct (bisect_turn b s sites verdict low high st Hinv)
    as (st2 & Hbody & Hinv2 & Hpr).
  set (mid := (low + high) `div` 2) in *.
  assert (Hmid : low ≤ mid < high) by (subst mid; Z.div_mod_to_equations; lia).
  rewrite (Hmono mid) in Hbody, Hinv2 by lia.
  rewrite narrowed_fst, narrowed_snd in Hbody, Hinv2. fold mid in Hbody, Hinv2.
  set (low' := if mid <? c then mid + 1 else low) in *.
  set (high' := if mid <? c then high else mid) in *.
  assert (Hc' : low' ≤ c ≤ high').
  { subst low' high'. destruct (Z.ltb_spec mid c); lia. }
  assert (Hbounds : 0 ≤ low' ∧ high' ≤ N ∧ high' - low' < high - low).
  { subst low' high'. destruct (mid <? c); lia. }
  destruct (Z.eqb_spec low' high') as [Heq|Hne].
  - exists 1. split; [lia|]. split.
    { change (2 ^ (1 - 1)) with 1. subst low' high' mid.
      destruct ((low + high) `div` 2 <? c); Z.div_mod_to_equations; lia. }
    exists 1%nat, st2. split_and!.
    + by apply perform_bisection_return.
    + destruct Hinv2 as (_ & _ & Hr). rewrite Hr.
      by replace low' with c by lia; replace high' with c by lia.
    + rewrite Hpr. lia.
  - destruct (IH (Z.to_nat (high' - low')) ltac:(lia) low' high' st2)
      as (k & Hk & Hq & fuel & st' & Hrun & Hrange & Hprobes);
      [done|lia..|done|].
    exists (k + 1). split; [lia|]. split.
    { replace (k + 1 - 1) with (k - 1 + 1) by lia.
      rewrite Z.pow_add_r by lia. change (2 ^ 1) with 2.
      subst low' high' mid.
      destruct ((low + high) `div` 2 <? c); Z.div_mod_to_equations; lia. }
    exists (S fuel), st'. split_and!.
    + by rewrite (perform_bisection_continue _ _ _ _ _ _ _ Hbody).
    + done.
    + rewrite Hprobes, Hpr. lia.
Qed.

(** C2, as the code has it.  Let the probe be true at every
    suppression midpoint below the culprit index [c] (the culprit is
    then suppressed) and false at [c] and above, [0 <= c <= N].  From a
    persisted Range [[0, N]] the [bisect] loop terminates with
    [low == high == c]; it performs at least [floor(log2(N + 1))] and at
    most [ceil(log2(N + 1))] probes, and never fewer than one: exactly
    one probe when [N = 0]. *)
Theorem C2_bisect_finds_culprit_within_log_probes (b s : string)
    (sites : list call_site) (verdict : list bool → bool) (N c : Z) st :
  bisecting b s 0 N st → 0 ≤ c ≤ N →
  (∀ m, 0 ≤ m ≤ N → verdict (suppress_pattern b s m 0 sites) = (m <? c)) →
  ∃ k, bisect_ends_at b s sites verdict st c k
       ∧ Z.max 1 (Z.log2 (N + 1)) ≤ k ≤ Z.max 1 (Z.log2_up (N + 1))
       ∧ (N = 0 → k = 1).
Proof.
  intros Hinv Hc Hmono.
  destruct (decide (N = 0)) as [->|HN].
  - destruct (bisect_turn b s sites verdict 0 0 st Hinv)
      as (st2 & Hbody & (_ & _ & Hr) & Hpr).
    change ((0 + 0) `div` 2) with 0 in Hbody, Hr.
    rewrite (Hmono 0) in Hbody, Hr by lia.
    assert (c = 0) as -> by lia. cbn in Hbody, Hr.
    exists 1. split; [|by cbn].
    exists 1%nat, st2. split_and!; [by apply perform_bisection_return|done|].
    rewrite Hpr. lia.
  - destruct (bisect_loop b s sites verdict N c Hmono (Z.to_nat (N - 0)) 0 N st)
      as (k & Hk & [Hq1 Hq2] & Hends); [done|lia..|done|].
    exists k. split; [done|]. split; [|done].
    replace (N - 0 + 1) with (N + 1) in Hq1, Hq2 by lia. split.
    + assert (Z.log2 (N + 1) < k + 1); [|lia].
      apply Z.log2_lt_pow2; [lia|].
      replace (k + 1) with (k - 1 + 2) by lia.
      rewrite Z.pow_add_r by lia. change (2 ^ 2) with 4. lia.
    + assert (k - 1 < Z.log2_up (N + 1)); [|lia].
      apply Z.log2_up_lt_pow2; lia.
Qed.

(** ** Counting the calls of the predicate *)

Lemma careful_mret {A} (a : A) : careful (mret a).
Proof. by intros st. Qed.

Lemma careful_raise {A} (e : exn) : e ≠ SystemExit 0 → careful (@raise A e).
Proof. by intros He st. Qed.

Lemma careful_gets {A} (f : state → A) : careful (gets f).
Proof. by intros st. Qed.

Lemma careful_bind {A B} (m : M A) (k : A → M B) :
  careful m → (∀ a, careful (k a)) → careful (m ≫= k).
Proof.
  intros Hm Hk st. unfold mbind, M_bind, bind.
  destruct (Hm st) as [Hp Ho]. destruct (m st) as [[a|e|] st1]; cbn in *.
  - destruct (Hk a st1) as [Hp' Ho']. split; [congruence|done].
  - done.
  - done.
Qed.




Lemma quiet_bind {A B} (m : M A) (k : A → M B) :
  quiet m → (∀ a, quiet (k a)) → quiet (m ≫= k).
Proof.
  intros Hm Hk st. unfold mbind, M_bind, bind.
  destruct (Hm st) as [Hp Ho]. destruct (m st) as [[a|e|] st1]; cbn in *.
  - destruct (Hk a st1) as [Hp' Ho']. split; [congruence|done].
  - done.
  - done.
Qed.

Lemma careful_modify (f : state → state) :
  (∀ st, probes (f st) = probes st) → careful (modify f).
Proof. intros Hf st. by split; [apply Hf|]. Qed.






(** The rules above, applied along the shape of a computation. *)
Ltac careful_step :=
  first
    [ apply careful_mret
    | apply careful_raise; discriminate
    | apply careful_gets
    | apply careful_modify; reflexivity
    | assumption
    | apply careful_bind; [|intros ?] ].

Ltac careful_tac := repeat first [careful_step | progress case_match].

Lemma careful_py_index {A} (l : list A) (i : nat) : careful (py_index l i).
Proof. unfold py_index. careful_tac. Qed.

Lemma careful_int (s : string) : careful (int s).
Proof. unfold int. careful_tac. Qed.

Lemma careful_field_value (line : string) : careful (field_value line).
Proof. apply careful_py_index. Qed.


Lemma careful_range_scan (lines : list string) (low high : option Z) :
  careful (range_scan lines low high).
Proof.
  revert low high. induction lines as [|line rest IH]; intros low high;
    cbn [range_scan]; [apply careful_mret|].
  apply careful_bind.
  - destruct (startswith line "low="); [|destruct (startswith line "high=")];
      repeat first [apply careful_field_value | apply careful_int | careful_step].
  - intros [l h]. destruct (_ && _); [apply careful_mret|apply IH].
Qed.











Lemma careful_delete_bisect_status : careful delete_bisect_status.
Proof. by apply careful_modify. Qed.











(** ** The command line *)





(** *** Steps of the traversal *)











(** * Further properties of the module *)

(** ** The guard hook outside the state machine *)

(** X1.  When bisection is disabled, or the cursor is on another
    backend or another subsystem, the guard answers [False] and leaves
    the whole state as it is: no counter moves, no file is written. *)
Theorem X1_guard_fast_path (b s b0 s0 : string) d st :
  bisection_enabled st = false
  ∨ (get_backend st = (Ret b0, st) ∧ get_subsystem st = (Ret s0, st)
     ∧ (b0 ≠ b ∨ s0 ≠ s)) →
  disable_subsystem b s d st = (Ret false, st).
Proof.
  intros [Hoff|(Hb & Hs & Hne)]; [by apply disable_subsystem_disabled|].
  destruct (bisection_enabled st) eqn:Hen; [|by apply disable_subsystem_disabled].
  apply (disable_subsystem_other b0 s0); try done.
  unfold site_of. cbn. apply andb_false_iff.
  destruct Hne as [Hne|Hne]; [left|right]; apply String.eqb_neq; congruence.
Qed.

Lemma run_sites_test_disable (b s : string) (sites : list call_site) st :
  guard_active b s st → get_run_state b s st = (Ret "test_disable", st) →
  run_sites sites st = (Ret (all_suppressed b s sites), st).
Proof.
  intros Hact Hrs. induction sites as [|site rest IH]; [done|].
  unfold all_suppressed. cbn [map]. fold (all_suppressed b s rest).
  destruct (site_of b s site) eqn:Hsite.
  - apply site_of_eq in Hsite as [Hsb Hss].
    destruct site as [b' s' d]. cbn in Hsb, Hss. subst b' s'.
    rewrite (run_sites_cons (CallSite b s d) _ _ _ _
               (disable_subsystem_test_disable b s d st Hact Hrs)).
    by rewrite IH.
  - assert (Hcall : disable_subsystem (site_backend site) (site_subsystem site)
                      (site_debug_info site) st = (Ret false, st)).
    { destruct Hact as (Hen & Hb & Hs & _), site as [b' s' d].
      by apply (disable_subsystem_other b s). }
    rewrite (run_sites_cons _ _ _ _ _ Hcall). by rewrite IH.
Qed.

(** X2.  In Run State [test_disable] a workload gets [True] at every
    call of the subsystem's call-site and [False] at every other
    call-site, and the guard changes nothing: the calls are not even
    counted. *)
Theorem X2_test_disable_suppresses_every_call (b s : string)
    (sites : list call_site) st :
  guard_active b s st → get_run_state b s st = (Ret "test_disable", st) →
  run_sites sites st = (Ret (all_suppressed b s sites), st).
Proof. apply run_sites_test_disable. Qed.

Lemma py_int_truthy (val : string) (n : Z) :
  py_int val = Some n → str_truthy val = true.
Proof. by destruct val. Qed.

Lemma disable_subsystem_override (b s val : string) (n : Z) d st :
  bisection_enabled st = true →
  get_backend st = (Ret b, st) → get_subsystem st = (Ret s, st) →
  get_env_val "TORCH_BISECT_MAX" = Some val → py_int val = Some n →
  disable_subsystem b s d st
  = (Ret (n <? counter_value s st),
     set_subsystem_call_counter
       (<[s := counter_value s st + 1]> (subsystem_call_counter st)) st).
Proof.
  intros Hen Hb Hs Henv Hint. unfold disable_subsystem.
  rewrite gets_bind, Hen. cbn [negb].
  rewrite (bind_ret _ _ _ _ _ Hb), String.eqb_refl. cbn [negb].
  rewrite (bind_ret _ _ _ _ _ Hs), String.eqb_refl. cbn [negb].
  cbv zeta. rewrite Henv, (py_int_truthy val n Hint).
  rewrite get_system_counter_bind. unfold int. by rewrite Hint.
Qed.

(** X3.  With a maximum-count override [TORCH_BISECT_MAX = n], given
    as a literal that [int()] accepts and that is no longer than the
    interpreter's limit on the digits of a literal, the guard bypasses
    the state machine: whatever the Run State and the Range, a
    workload gets [True] exactly at the calls of the subsystem whose
    index is above [n], each call is counted, and no file is read for
    the decision or written. *)
Theorem X3_max_override_suppresses_above_bound (b s val : string) (n : Z)
    (sites : list call_site) st :
  bisection_enabled st = true →
  get_backend st = (Ret b, st) → get_subsystem st = (Ret s, st) →
  get_env_val "TORCH_BISECT_MAX" = Some val →
  (String.length val ≤ int_max_str_digits)%nat → py_int val = Some n →
  ∃ st', run_sites sites st
         = (Ret (suppress_pattern b s n (counter_value s st) sites), st')
    ∧ files st' = files st
    ∧ counter_value s st' = counter_value s st + Z.of_nat (fires b s sites).
Proof.
  intros Hen Hb Hs Henv _ Hint. revert st Hen Hb Hs.
  induction sites as [|site rest IH]; intros st Hen Hb Hs.
  { exists st. cbn. split_and!; try done. lia. }
  cbn [fires suppress_pattern].
  destruct (site_of b s site) eqn:Hsite.
  - apply site_of_eq in Hsite as [Hsb Hss].
    destruct site as [b' s' d]. cbn in Hsb, Hss. subst b' s'.
    pose proof (disable_subsystem_override b s val n d st Hen Hb Hs Henv Hint)
      as Hcall.
    rewrite (run_sites_cons (CallSite b s d) _ _ _ _ Hcall).
    set (st1 := set_subsystem_call_counter _ st) in *.
    assert (Hc1 : counter_value s st1 = counter_value s st + 1).
    { subst st1. unfold counter_value at 1. cbn. by rewrite lookup_insert_eq. }
    destruct (IH st1) as (st' & Hrun & Hf & Hcnt); [done| | |].
    { by eapply reads_file_run; [apply get_backend_reads|exact Hb|]. }
    { by eapply reads_file_run; [apply get_subsystem_reads|exact Hs|]. }
    exists st'. rewrite Hrun, Hc1. split_and!; [done|done|].
    rewrite Hcnt, Hc1. lia.
  - assert (Hcall : disable_subsystem (site_backend site) (site_subsystem site)
                      (site_debug_info site) st = (Ret false, st)).
    { destruct site as [b' s' d]. by apply (disable_subsystem_other b s). }
    rewrite (run_sites_cons _ _ _ _ _ Hcall).
    destruct (IH st Hen Hb Hs) as (st' & Hrun & Hrest).
    exists st'. by rewrite Hrun.
Qed.

(** X4.  A maximum-count override that is no integer literal makes
    the guard raise [ValueError]; the counter was read, and
    incremented, before the literal is parsed. *)
Theorem X4_max_override_malformed (b s val : string) d st :
  bisection_enabled st = true →
  get_backend st = (Ret b, st) → get_subsystem st = (Ret s, st) →
  get_env_val "TORCH_BISECT_MAX" = Some val → val ≠ "" → py_int val = None →
  ∃ msg st', disable_subsystem b s d st = (Raise (ValueError msg), st')
    ∧ counter_value s st' = counter_value s st + 1
    ∧ files st' = files st.
Proof.
  intros Hen Hb Hs Henv Hne Hint. unfold disable_subsystem.
  rewrite gets_bind, Hen. cbn [negb].
  rewrite (bind_ret _ _ _ _ _ Hb), String.eqb_refl. cbn [negb].
  rewrite (bind_ret _ _ _ _ _ Hs), String.eqb_refl. cbn [negb].
  cbv zeta. rewrite Henv. apply String.eqb_neq in Hne.
  unfold str_truthy. rewrite Hne. cbn [negb].
  rewrite get_system_counter_bind. unfold int. rewrite Hint.
  eexists _, _. split_and!; [reflexivity| |done].
  unfold counter_value at 1. cbn. by rewrite lookup_insert_eq.
Qed.

(** ** Records: what is written is read back, and nothing else moves *)







Lemma endswith_char_app (a b : string) (c : ascii) :
  b ≠ "" → endswith_char (a +:+ b) c = endswith_char b c.
Proof.
  intros Hb. induction a as [|x a IH]; [done|].
  rewrite append_cons. cbn [endswith_char].
  destruct (a +:+ b) as [|y r] eqn:E; [|done].
  destruct a; [by rewrite append_nil_l in E|by rewrite append_cons in E].
Qed.

Lemma join_step_get_dir (x : string) :
  startswith x "/" = false → join_step get_dir x = get_dir +:+ "/" +:+ x.
Proof.
  intros Hx. unfold join_step. rewrite Hx.
  assert (String.eqb get_dir "" = false) as ->.
  { apply String.eqb_neq. unfold get_dir. by destruct cache_dir. }
  assert (endswith_char get_dir "/" = false) as ->; [|done].
  unfold get_dir. by rewrite endswith_char_app.
Qed.


Lemma startswith_slash_app (s t : string) :
  startswith s "/" = false → startswith t "/" = false →
  startswith (s +:+ t) "/" = false.
Proof. destruct s as [|c s]; [done|]. by rewrite append_cons. Qed.





Lemma path_entry_insert_apart (fs : gmap string string) (q v path : string) :
  path ≠ q → startswith q (path +:+ "/") = false →
  path_entry (<[q := v]> fs) path = path_entry fs path.
Proof. intros Hne Hpre. apply path_entry_insert; [done|]. by rewrite Hpre. Qed.

Lemma startswith_same_prefix (D y z : string) :
  startswith (D +:+ y) (D +:+ z) = startswith y z.
Proof.
  induction D as [|c D IH]; [done|].
  by rewrite !append_cons, startswith_cons, Ascii.eqb_refl.
Qed.

Lemma dot_then_slash_app_l (x y : string) :
  dot_then_slash x = true → dot_then_slash (x +:+ y) = true.
Proof.
  induction x as [|c x IH]; [done|]. rewrite append_cons. cbn [dot_then_slash].
  rewrite !orb_true_iff, !andb_true_iff, !negb_true_iff.
  intros [[Hc Hx]|Hx]; [left|right; by apply IH].
  split; [done|]. by rewrite all_chars_app, Hx.
Qed.

Lemma dot_then_slash_no_dot (n y : string) :
  all_chars (λ c, negb (Ascii.eqb c ".")) n = true →
  dot_then_slash (n +:+ y) = dot_then_slash y.
Proof.
  induction n as [|c n IH]; [done|]. rewrite append_cons. simpl.
  rewrite andb_true_iff. intros [Hc Hn]. apply negb_true_iff in Hc.
  rewrite Hc. cbn. by apply IH.
Qed.

(** A path with a dot in its last component only lies below no path
    that ends in a component with a dot. *)
Lemma plain_not_below (D T suf T' suf' : string) :
  all_chars (λ c, negb (Ascii.eqb c ".")) T = true →
  all_chars (λ c, negb (Ascii.eqb c ".")) T' = true →
  dot_then_slash suf = false → dot_then_slash (suf' +:+ "/") = true →
  startswith (D +:+ T +:+ suf) ((D +:+ T' +:+ suf') +:+ "/") = false.
Proof.
  intros HT HT' Hsuf Hsuf'. rewrite !append_assoc, startswith_same_prefix.
  destruct (startswith _ _) eqn:E; [|done]. apply startswith_app in E as [r Hr].
  assert (dot_then_slash (T +:+ suf) = true) as Habs.
  { rewrite Hr. apply dot_then_slash_app_l. by rewrite dot_then_slash_no_dot. }
  rewrite dot_then_slash_no_dot in Habs by done. congruence.
Qed.

Lemma plain_name_no_dot (name : string) :
  plain_name name = true →
  all_chars (λ c, negb (Ascii.eqb c ".")) name = true.
Proof.
  apply all_chars_impl. intros c. rewrite andb_true_iff. by intros [_ ?].
Qed.

Lemma plain_name_no_slash (name : string) :
  plain_name name = true →
  all_chars (λ c, negb (Ascii.eqb c "/")) name = true.
Proof.
  apply all_chars_impl. intros c. rewrite andb_true_iff. by intros [? _].
Qed.

Lemma plain_name_relative (name : string) :
  plain_name name = true → startswith name "/" = false.
Proof.
  destruct name as [|c name]; [done|]. cbn [plain_name all_chars].
  rewrite !andb_true_iff, negb_true_iff. intros [[Hc _] _].
  rewrite startswith_cons, Ascii.eqb_sym. by rewrite Hc.
Qed.

Lemma no_slash_endswith (name : string) :
  all_chars (λ c, negb (Ascii.eqb c "/")) name = true →
  endswith_char name "/" = false.
Proof.
  induction name as [|c name IH]; [done|]. cbn [all_chars endswith_char].
  rewrite andb_true_iff, negb_true_iff. intros [Hc Hn].
  destruct name; [done|by apply IH].
Qed.

(** The records of a pair of plain names lie below the directory, in
    a path whose only dot is the one of the extension. *)
Lemma plain_record_paths (b s : string) :
  plain_name b = true → plain_name s = true →
  ∃ T, all_chars (λ c, negb (Ascii.eqb c ".")) T = true
       ∧ run_state_path b s = (get_dir +:+ "/") +:+ T +:+ "_run_state.txt"
       ∧ bisect_range_path b s = (get_dir +:+ "/") +:+ T +:+ "_bisect_range.txt".
Proof.
  intros Hb Hs. unfold run_state_path, bisect_range_path, os_path_join.
  cbn [fold_left]. rewrite join_step_get_dir by by apply plain_name_relative.
  unfold join_step.
  rewrite !startswith_slash_app by first [by apply plain_name_relative | done].
  assert (String.eqb (get_dir +:+ "/" +:+ b) "" = false) as ->.
  { apply String.eqb_neq. unfold get_dir. by destruct cache_dir. }
  cbn [orb]. destruct b as [|c b].
  - assert (endswith_char (get_dir +:+ "/" +:+ "") "/" = true) as ->.
    { by rewrite endswith_char_app. }
    exists s. split; [by apply plain_name_no_dot|].
    by rewrite !append_assoc.
  - assert (endswith_char (get_dir +:+ "/" +:+ String c b) "/" = false) as ->.
    { rewrite <- append_assoc, endswith_char_app by done.
      by apply no_slash_endswith, plain_name_no_slash. }
    exists (String c b +:+ "/" +:+ s). split.
    + rewrite !all_chars_app, (plain_name_no_dot _ Hb), (plain_name_no_dot _ Hs).
      done.
    + by rewrite !append_assoc.
Qed.

Lemma bisect_status_path_plain :
  bisect_status_path = (get_dir +:+ "/") +:+ "" +:+ "bisect_status.txt".
Proof.
  unfold bisect_status_path, os_path_join. cbn [fold_left].
  rewrite join_step_get_dir by done. by rewrite !append_assoc.
Qed.

(** X8.  The three kinds of record never get in each other's way, for
    plain names (no ['/'] and no ['.']): writing a Range changes
    neither what [get_run_state] reads for any pair nor the cursor;
    writing a Run State changes neither any Range nor the cursor;
    writing the cursor changes neither any Run State nor any Range. *)
Theorem X8_records_do_not_interfere (b s b' s' rs : string) (low high : Z) st :
  plain_name b = true → plain_name s = true →
  plain_name b' = true → plain_name s' = true →
  let after_range := (update_bisect_range b' s' low high st).2 in
  let after_state := (update_run_state b' s' rs st).2 in
  let after_cursor := (update_bisect_status b' s' st).2 in
  ((get_run_state b s after_range).1 = (get_run_state b s st).1
   ∧ (get_backend after_range).1 = (get_backend st).1
   ∧ (get_subsystem after_range).1 = (get_subsystem st).1)
  ∧ ((get_bisect_range b s after_state).1 = (get_bisect_range b s st).1
     ∧ (get_backend after_state).1 = (get_backend st).1
     ∧ (get_subsystem after_state).1 = (get_subsystem st).1)
  ∧ ((get_run_state b s after_cursor).1 = (get_run_state b s st).1
     ∧ (get_bisect_range b s after_cursor).1 = (get_bisect_range b s st).1).
Proof.
  intros Hb Hs Hb' Hs' after_range after_state after_cursor.
  destruct (plain_record_paths b s Hb Hs) as (T & HT & Hrs & Hrg).
  destruct (plain_record_paths b' s' Hb' Hs') as (T' & HT' & Hrs' & Hrg').
  assert (Hrange : ∀ p, p ≠ bisect_range_path b' s' →
            startswith (bisect_range_path b' s') (p +:+ "/") = false →
            path_entry (files after_range) p = path_entry (files st) p).
  { intros p Hp Hq. subst after_range. cbn. by apply path_entry_insert_apart. }
  assert (Hstate : ∀ p, p ≠ run_state_path b' s' →
            startswith (run_state_path b' s') (p +:+ "/") = false →
            path_entry (files after_state) p = path_entry (files st) p).
  { intros p Hp Hq. subst after_state. rewrite update_run_state_run. cbn.
    by apply path_entry_insert_apart. }
  assert (Hcursor : ∀ p, p ≠ bisect_status_path →
            startswith bisect_status_path (p +:+ "/") = false →
            path_entry (files after_cursor) p = path_entry (files st) p).
  { intros p Hp Hq. subst after_cursor. cbn. by apply path_entry_insert_apart. }
  split_and!.
  - rewrite (get_run_state_reads b s st after_range); [done|].
    apply Hrange; [apply run_state_path_ne_range|].
    rewrite Hrg', Hrs. by apply plain_not_below.
  - rewrite (get_backend_reads st after_range); [done|].
    apply Hrange; [apply not_eq_sym, bisect_range_path_ne_status|].
    rewrite Hrg', bisect_status_path_plain. by apply plain_not_below.
  - rewrite (get_subsystem_reads st after_range); [done|].
    apply Hrange; [apply not_eq_sym, bisect_range_path_ne_status|].
    rewrite Hrg', bisect_status_path_plain. by apply plain_not_below.
  - rewrite (get_bisect_range_reads b s st after_state); [done|].
    apply Hstate; [apply not_eq_sym, run_state_path_ne_range|].
    rewrite Hrs', Hrg. by apply plain_not_below.
  - rewrite (get_backend_reads st after_state); [done|].
    apply Hstate; [apply not_eq_sym, run_state_path_ne_status|].
    rewrite Hrs', bisect_status_path_plain. by apply plain_not_below.
  - rewrite (get_subsystem_reads st after_state); [done|].
    apply Hstate; [apply not_eq_sym, run_state_path_ne_status|].
    rewrite Hrs', bisect_status_path_plain. by apply plain_not_below.
  - rewrite (get_run_state_reads b s st after_cursor); [done|].
    apply Hcursor; [apply run_state_path_ne_status|].
    rewrite bisect_status_path_plain at 1. rewrite Hrs.
    by apply plain_not_below.
  - rewrite (get_bisect_range_reads b s st after_cursor); [done|].
    apply Hcursor; [apply bisect_range_path_ne_status|].
    rewrite bisect_status_path_plain at 1. rewrite Hrg.
    by apply plain_not_below.
Qed.

(** ** Resetting and starting a session *)






(** X11.  A command line without a command, or with a command other
    than [start], [end], [good] and [bad], exits with status 1 and
    leaves the state as it is. *)
Theorem X11_usage_error_exits_1 (fuel : nat) (argv : list string) st :
  (length argv < 2)%nat
  ∨ (∃ prog command rest, argv = prog :: command :: rest
       ∧ command ≠ "start" ∧ command ≠ "end"
       ∧ command ≠ "good" ∧ command ≠ "bad") →
  command_line_usage fuel argv st = (Raise (SystemExit 1), st).
Proof.
  intros [Hlen|(prog & command & rest & -> & H1 & H2 & H3 & H4)].
  - unfold command_line_usage. apply Nat.ltb_lt in Hlen. by rewrite Hlen.
  - apply String.eqb_neq in H1, H2, H3, H4.
    unfold command_line_usage. cbn [length Nat.ltb Nat.leb].
    change (py_index (prog :: command :: rest) 1) with (@mret M _ _ command).
    rewrite mret_bind. by rewrite H1, H2, H3, H4.
Qed.

(** X12.  [perform_bisection] on a Run State other than
    [test_disable], [find_max_bounds] and [bisect] (an absent record
    reads as the empty Run State) raises [RuntimeError] naming the
    value, before any probe: the counters are reset and nothing else
    changes. *)
Theorem X12_unexpected_run_state (fuel : nat) (b s rs : string) (fn : M bool)
    (cli : bool) st :
  get_run_state b s st = (Ret rs, st) →
  rs ≠ "test_disable" → rs ≠ "find_max_bounds" → rs ≠ "bisect" →
  perform_bisection (S fuel) b s fn cli st
  = (Raise (RuntimeError ("Unexpected run_state " +:+ rs)), cleared st).
Proof.
  intros Hrs H1 H2 H3. apply String.eqb_neq in H1, H2, H3.
  apply perform_bisection_raise. unfold perform_bisection_body.
  rewrite (body_enter _ _ _ _ _ Hrs). by rewrite H1, H2, H3.
Qed.

(** ** Damaged Range records *)

Lemma range_scan_no_high (lines : list string) (low : option Z) st :
  Forall (λ line, startswith line "high=" = false) lines →
  match (range_scan lines low None st).1 with
  | Ret (_, high) => high = None
  | _ => True
  end.
Proof.
  revert low st. induction lines as [|line rest IH]; intros low st Hall; [done|].
  inversion Hall as [|? ? Hline Hrest]; subst.
  cbn [range_scan]. rewrite Hline.
  destruct (startswith line "low=").
  - unfold mbind, M_bind, bind.
    destruct (field_value line st) as [[v|e|] st1]; [|done..].
    destruct (int v st1) as [[z|e|] st2]; [|done..].
    cbn. by apply IH.
  - rewrite mret_bind. cbn [is_not_None]. rewrite andb_false_r. by apply IH.
Qed.

Lemma range_scan_no_low (lines : list string) (high : option Z) st :
  Forall (λ line, startswith line "low=" = false) lines →
  match (range_scan lines None high st).1 with
  | Ret (low, _) => low = None
  | _ => True
  end.
Proof.
  revert high st. induction lines as [|line rest IH]; intros high st Hall; [done|].
  inversion Hall as [|? ? Hline Hrest]; subst.
  cbn [range_scan]. rewrite Hline.
  destruct (startswith line "high=").
  - unfold mbind, M_bind, bind.
    destruct (field_value line st) as [[v|e|] st1]; [|done..].
    destruct (int v st1) as [[z|e|] st2]; [|done..].
    cbn. by apply IH.
  - rewrite mret_bind. cbn [is_not_None andb]. by apply IH.
Qed.

(** X13.  A Range record in which no line starts with [high=], or no
    line starts with [low=], is never read as a Range:
    [get_bisect_range] raises instead of filling in a default bound. *)
Theorem X13_partial_range_record_rejected (b s content : string) st :
  files st !! bisect_range_path b s = Some content →
  Forall (λ line, startswith line "high=" = false) (readlines content)
  ∨ Forall (λ line, startswith line "low=" = false) (readlines content) →
  ∃ e, (get_bisect_range b s st).1 = Raise e.
Proof.
  intros Hf Hall. unfold get_bisect_range.
  rewrite (read_lines_file _ _ _ _ Hf). unfold mbind, M_bind, bind.
  destruct Hall as [Hall|Hall]; apply Forall_rev in Hall.
  - pose proof (range_scan_no_high _ None st Hall) as Hscan.
    pose proof (careful_range_scan (rev (readlines content)) None None st)
      as [_ Hc].
    destruct (range_scan (rev (readlines content)) None None st)
      as [[[l h]|e|] st1]; cbn in Hscan, Hc; [|by eexists|done].
    subst h. destruct l; by eexists.
  - pose proof (range_scan_no_low _ None st Hall) as Hscan.
    pose proof (careful_range_scan (rev (readlines content)) None None st)
      as [_ Hc].
    destruct (range_scan (rev (readlines content)) None None st)
      as [[[l h]|e|] st1]; cbn in Hscan, Hc; [|by eexists|done].
    subst l. by eexists.
Qed.

(** ** What the guard hook never touches *)

Lemma writes_only_mret {A} (path : string) (a : A) : writes_only path (mret a).
Proof. by intros st. Qed.

Lemma writes_only_raise {A} (path : string) (e : exn) :
  writes_only path (@raise A e).
Proof. by intros st. Qed.

Lemma writes_only_bind {A B} (path : string) (m : M A) (k : A → M B) :
  writes_only path m → (∀ a, writes_only path (k a)) →
  writes_only path (m ≫= k).
Proof.
  intros Hm Hk st. unfold mbind, M_bind, bind.
  destruct (Hm st) as (Hf & Hen & Hp).
  destruct (m st) as [[a|e|] st1]; cbn in *; [|done..].
  destruct (Hk a st1) as (Hf' & Hen' & Hp'). split_and!.
  - intros p Hne. by rewrite Hf', Hf.
  - congruence.
  - congruence.
Qed.

Lemma writes_only_read {A} (path : string) (m : M A) :
  (∀ st, (m st).2 = st) → writes_only path m.
Proof. intros Hm st. by rewrite Hm. Qed.

Lemma pure_same_state {A} (m : M A) st : pure m → (m st).2 = st.
Proof. intros Hm. by rewrite (Hm st st). Qed.

Lemma writes_only_disable_subsystem (b s : string) d :
  writes_only (bisect_range_path b s) (disable_subsystem b s d).
Proof.
  assert (Hbackend : writes_only (bisect_range_path b s) get_backend).
  { apply writes_only_read. intros st.
    apply (reads_file_state bisect_status_path), get_backend_reads. }
  assert (Hsubsystem : writes_only (bisect_range_path b s) get_subsystem).
  { apply writes_only_read. intros st.
    apply (reads_file_state bisect_status_path), get_subsystem_reads. }
  assert (Hstate : writes_only (bisect_range_path b s) (get_run_state b s)).
  { apply writes_only_read. intros st.
    apply (reads_file_state (run_state_path b s)), get_run_state_reads. }
  assert (Hrange : writes_only (bisect_range_path b s) (get_bisect_range b s)).
  { apply writes_only_read. intros st.
    apply (reads_file_state (bisect_range_path b s)), get_bisect_range_reads. }
  assert (Hcounter : writes_only (bisect_range_path b s)
                       (get_system_counter s true)) by (by intros st).
  assert (Hint : ∀ val, writes_only (bisect_range_path b s) (int val)).
  { intros val. apply writes_only_read. intros st.
    apply pure_same_state, pure_int. }
  assert (Hupdate : ∀ low high, writes_only (bisect_range_path b s)
                                  (update_bisect_range b s low high)).
  { intros low high st. split_and!; [|done..].
    intros p Hp. cbn. by rewrite lookup_insert_ne. }
  assert (Hcache : ∀ f : gmap Z string → gmap Z string,
            writes_only (bisect_range_path b s)
              (modify (λ st, set_call_counter_debug_info
                               (f (call_counter_debug_info st)) st)))
    by (by intros f st).
  unfold disable_subsystem.
  apply writes_only_bind; [by intros st|intros enabled].
  destruct (negb enabled); [apply writes_only_mret|].
  apply writes_only_bind; [done|intros b0].
  destruct (negb _); [apply writes_only_mret|].
  apply writes_only_bind; [done|intros s0].
  destruct (negb _); [apply writes_only_mret|].
  assert (Hmachine : writes_only (bisect_range_path b s)
    (run_state ← get_run_state b s;
     if String.eqb run_state "test_disable" then mret true
     else if String.eqb run_state "find_max_bounds" then
       counter ← get_system_counter s true;
       _ ← update_bisect_range b s 0 counter;
       mret false
     else
       '(low, high) ← get_bisect_range b s;
       let midpoint := (low + high) `div` 2 in
       call_counter ← get_system_counter s true;
       _ ← (if (low <=? call_counter) && (call_counter <=? high)
               && (low - high <=? 2) && is_not_None d
            then match d with
                 | Some producer =>
                     modify (λ st, set_call_counter_debug_info
                       (<[call_counter := producer tt]> (call_counter_debug_info st)) st)
                 | None => mret tt
                 end
            else mret tt);
       mret (midpoint <? call_counter))).
  { apply writes_only_bind; [done|intros rs].
    destruct (String.eqb rs "test_disable"); [apply writes_only_mret|].
    destruct (String.eqb rs "find_max_bounds").
    - apply writes_only_bind; [done|intros c].
      apply writes_only_bind; [done|intros _]. apply writes_only_mret.
    - apply writes_only_bind; [done|intros [low high]].
      apply writes_only_bind; [done|intros c].
      apply writes_only_bind; [|intros _; apply writes_only_mret].
      destruct (_ && _); [|apply writes_only_mret].
      destruct d as [producer|]; [|apply writes_only_mret].
      apply (Hcache (λ cache, <[c := producer tt]> cache)). }
  cbv zeta. destruct (get_env_val "TORCH_BISECT_MAX") as [val|]; [|done].
  destruct (str_truthy val); [|done].
  apply writes_only_bind; [done|intros c].
  apply writes_only_bind; [done|intros bound]. apply writes_only_mret.
Qed.

Lemma writes_beside_bind {A B} (path beside : string) (m : M A)
    (k : A → M B) st :
  writes_beside path beside m st →
  (∀ a st1, m st = (Ret a, st1) → writes_beside path beside (k a) st1) →
  writes_beside path beside (m ≫= k) st.
Proof.
  unfold writes_beside, mbind, M_bind, bind. intros Hm Hk.
  destruct (m st) as [[a|e|] st1]; cbn in *; [|done..].
  destruct (Hk a st1 eq_refl) as [Hsame|[Hbeside [v Hv]]].
  - rewrite Hsame. done.
  - destruct Hm as [Hm|[Hbeside0 [v0 Hv0]]].
    + right. rewrite Hm in Hbeside, Hv. split; [done|by exists v].
    + right. split; [done|]. exists v. by rewrite Hv, Hv0, insert_insert_eq.
Qed.

Lemma writes_beside_same {A B} (path beside : string) (m : M A)
    (k : A → M B) st :
  (∀ st, files (m st).2 = files st) →
  (∀ a st1, writes_beside path beside (k a) st1) →
  writes_beside path beside (m ≫= k) st.
Proof.
  intros Hm Hk. apply writes_beside_bind; [by left|]. intros a st1 _. apply Hk.
Qed.

Lemma writes_beside_mret {A} (path beside : string) (a : A) st :
  writes_beside path beside (mret a) st.
Proof. by left. Qed.

(** The guard writes its Range only where the Run State is recorded. *)
Lemma writes_beside_disable_subsystem (b s : string) d st :
  writes_beside (bisect_range_path b s) (run_state_path b s)
    (disable_subsystem b s d) st.
Proof.
  assert (Hbackend : ∀ st, files (get_backend st).2 = files st).
  { intros st0. f_equal.
    apply (reads_file_state bisect_status_path), get_backend_reads. }
  assert (Hsubsystem : ∀ st, files (get_subsystem st).2 = files st).
  { intros st0. f_equal.
    apply (reads_file_state bisect_status_path), get_subsystem_reads. }
  assert (Hrange : ∀ st, files (get_bisect_range b s st).2 = files st).
  { intros st0. f_equal. apply get_bisect_range_same_state. }
  assert (Hcounter : ∀ st, files (get_system_counter s true st).2 = files st)
    by done.
  assert (Hint : ∀ val st, files (int val st).2 = files st).
  { intros val st0. f_equal. apply pure_same_state, pure_int. }
  revert st. unfold disable_subsystem.
  intros st. apply writes_beside_same; [done|]. clear st. intros enabled st.
  destruct (negb enabled); [apply writes_beside_mret|].
  apply writes_beside_same; [done|]. clear st. intros b0 st.
  destruct (negb _); [apply writes_beside_mret|].
  apply writes_beside_same; [done|]. clear st. intros s0 st.
  destruct (negb _); [apply writes_beside_mret|].
  assert (Hmachine : writes_beside (bisect_range_path b s) (run_state_path b s)
    (run_state ← get_run_state b s;
     if String.eqb run_state "test_disable" then mret true
     else if String.eqb run_state "find_max_bounds" then
       counter ← get_system_counter s true;
       _ ← update_bisect_range b s 0 counter;
       mret false
     else
       '(low, high) ← get_bisect_range b s;
       let midpoint := (low + high) `div` 2 in
       call_counter ← get_system_counter s true;
       _ ← (if (low <=? call_counter) && (call_counter <=? high)
               && (low - high <=? 2) && is_not_None d
            then match d with
                 | Some producer =>
                     modify (λ st, set_call_counter_debug_info
                       (<[call_counter := producer tt]> (call_counter_debug_info st)) st)
                 | None => mret tt
                 end
            else mret tt);
       mret (midpoint <? call_counter)) st).
  { apply writes_beside_bind.
    { left. f_equal. apply get_run_state_same_state. }
    intros rs st1 Hrs.
    assert (st1 = st) as ->
      by (by rewrite <- (get_run_state_same_state b s st), Hrs).
    destruct (String.eqb rs "test_disable"); [apply writes_beside_mret|].
    destruct (String.eqb rs "find_max_bounds") eqn:Hfmb.
    - apply String.eqb_eq in Hfmb as ->. right. split.
      + by apply (get_run_state_exists b s "find_max_bounds").
      + by eexists.
    - apply writes_beside_same; [done|]. clear. intros [low high] st.
      apply writes_beside_same; [done|]. clear. intros c st.
      apply writes_beside_same; [|intros; apply writes_beside_mret].
      intros st0. destruct (_ && _); [|done]. by destruct d. }
  cbv zeta. destruct (get_env_val "TORCH_BISECT_MAX") as [val|]; [|done].
  destruct (str_truthy val); [|done].
  apply writes_beside_same; [done|]. intros c st1.
  apply writes_beside_same; [apply Hint|]. intros. apply writes_beside_mret.
Qed.

(** What lies at every other path stays as it is across a call of the
    guard. *)
Lemma disable_subsystem_entries (b s : string) d st (path : string) :
  path ≠ bisect_range_path b s →
  path_entry (files (disable_subsystem b s d st).2) path
  = path_entry (files st) path.
Proof.
  intros Hne.
  destruct (writes_beside_disable_subsystem b s d st) as [->|[Hbeside [v ->]]];
    [done|].
  by apply path_entry_write_range.
Qed.

(** X14.  Whatever the state, the arguments and the outcome, a call
    of the guard writes no file other than the Range record of its
    own [(backend, subsystem)]: the cursor and every Run State read
    the same after the call as before; bisection stays enabled or
    disabled as it was. *)
Theorem X14_guard_writes_only_its_range (b s b' s' : string) d st :
  let st' := (disable_subsystem b s d st).2 in
  (∀ p, p ≠ bisect_range_path b s → files st' !! p = files st !! p)
  ∧ bisection_enabled st' = bisection_enabled st
  ∧ (get_backend st').1 = (get_backend st).1
  ∧ (get_subsystem st').1 = (get_subsystem st).1
  ∧ (get_run_state b' s' st').1 = (get_run_state b' s' st).1.
Proof.
  intros st'.
  destruct (writes_only_disable_subsystem b s d st) as (Hf & Hen & _).
  fold st' in Hf, Hen. split_and!; [done..| | |].
  - by rewrite (get_backend_reads st st'
                  (disable_subsystem_entries b s d st _
                     (not_eq_sym (bisect_range_path_ne_status _ _)))).
  - by rewrite (get_subsystem_reads st st'
                  (disable_subsystem_entries b s d st _
                     (not_eq_sym (bisect_range_path_ne_status _ _)))).
  - by rewrite (get_run_state_reads b' s' st st'
                  (disable_subsystem_entries b s d st _
                     (run_state_path_ne_range _ _ _ _))).
Qed.

(** ** The search of one subsystem, from [test_disable] to the culprit *)








(** ** Hand-edited Run State records *)

Lemma translate_newlines_line (a rest : string) :
  all_chars (λ c, negb (Ascii.eqb c CR)) a = true →
  translate_newlines (a +:+ String LF rest)
  = a +:+ String LF (translate_newlines rest).
Proof.
  induction a as [|c a IH]; [done|]. rewrite !append_cons. simpl.
  rewrite andb_true_iff. intros [Hc Ha]. apply negb_true_iff in Hc.
  by rewrite Hc, (IH Ha).
Qed.

(** X18.  [get_run_state] reads the first line of the record,
    stripped: a Run State followed by a line ending, and by whatever
    else, reads as the Run State itself. *)
Theorem X18_run_state_is_first_line (b s rs rest : string) st :
  all_chars (λ c, negb (isspace c)) rs = true →
  files st !! run_state_path b s = Some (rs +:+ String LF rest) →
  get_run_state b s st = (Ret rs, st).
Proof.
  intros Hrs Hf. unfold get_run_state.
  rewrite (read_lines_file _ _ _ _ Hf).
  assert (Hl : all_chars line_char rs = true)
    by (revert Hrs; apply all_chars_impl, nonspace_line_char).
  unfold readlines. rewrite translate_newlines_line, keepends_line.
  - by rewrite strip_line.
  - revert Hl. apply all_chars_impl. intros c. unfold line_char.
    rewrite andb_true_iff. by intros [? ?].
  - revert Hl. apply all_chars_impl. intros c. unfold line_char.
    rewrite andb_true_iff. by intros [? ?].
Qed.

(** ** The in-process session *)







End BisectHelper.

(** * The statements on the sample session *)

Lemma sample_guard_active (run_state : string) (range : option (Z * Z)) counters info n :
  guard_active "/c" sample_env "inductor" "lowerings"
    (State (sample_files run_state range) counters info true n).
Proof.
  unfold guard_active. split_and!; try reflexivity.
  - destruct range as [[l h]|]; vm_compute; reflexivity.
  - destruct range as [[l h]|]; vm_compute; reflexivity.
Defined.



Lemma sample_bisecting (low high : Z) counters info n :
  bisecting "/c" sample_env "inductor" "lowerings" low high
    (State (sample_files "bisect" (Some (low, high))) counters info true n).
Proof.
  unfold bisecting. split_and!.
  - apply sample_guard_active.
  - apply get_run_state_written; reflexivity.
  - apply get_bisect_range_written. reflexivity.
Defined.

Lemma C2_witness :
  bisecting "/c" sample_env "inductor" "lowerings" 0 6
    (sample_state "bisect" (Some (0, 6)))
  ∧ 0 ≤ 3 ≤ 6
  ∧ ∃ k, bisect_ends_at "/c" sample_env "inductor" "lowerings"
           (replicate 7 sample_site) (λ answers, nth 3 answers false)
           (sample_state "bisect" (Some (0, 6))) 3 k
         ∧ Z.max 1 (Z.log2 (6 + 1)) ≤ k ≤ Z.max 1 (Z.log2_up (6 + 1))
         ∧ (6 = 0 → k = 1).
Proof.
  split_and!; [apply sample_bisecting|lia..|].
  apply (C2_bisect_finds_culprit_within_log_probes "/c" sample_env
           "inductor" "lowerings" (replicate 7 sample_site)
           (λ answers, nth 3 answers false) 6 3
           (sample_state "bisect" (Some (0, 6)))).
  - apply sample_bisecting.
  - lia.
  - intros m Hm.
    assert (m = 0 ∨ m = 1 ∨ m = 2 ∨ m = 3 ∨ m = 4 ∨ m = 5 ∨ m = 6) as H by lia.
    destruct H as [->|[->|[->|[->|[->|[->| ->]]]]]]; reflexivity.
Defined.

(** With the polarity of the specification (false below the threshold,
    true from it on) the loop on [[0, 2]] with threshold 1 stops after one
    probe on index 2: neither the threshold nor [ceil(log2 3) = 2]
    probes. *)
Lemma C2_counterexample :
  bisecting "/c" sample_env "inductor" "lowerings" 0 2
    (sample_state "bisect" (Some (0, 2)))
  ∧ (∀ m, 0 ≤ m ≤ 2 →
       negb (nth 1 (suppress_pattern "inductor" "lowerings" m 0
                      (replicate 3 sample_site)) false) = (1 <=? m))
  ∧ ¬ bisect_ends_at "/c" sample_env "inductor" "lowerings"
        (replicate 3 sample_site) (λ answers, negb (nth 1 answers false))
        (sample_state "bisect" (Some (0, 2))) 1 (Z.log2_up (2 + 1))
  ∧ bisect_ends_at "/c" sample_env "inductor" "lowerings"
      (replicate 3 sample_site) (λ answers, negb (nth 1 answers false))
      (sample_state "bisect" (Some (0, 2))) 2 1.
Proof.
  split_and!.
  - apply sample_bisecting.
  - intros m Hm. assert (m = 0 ∨ m = 1 ∨ m = 2) as H by lia.
    destruct H as [->|[->| ->]]; reflexivity.
  - intros (fuel & st' & Hrun & Hrange & Hcount).
    destruct fuel as [|fuel]; [discriminate|].
    vm_compute in Hrun. injection Hrun as <-.
    vm_compute in Hrange. discriminate.
  - exists 1%nat. eexists. split_and!.
    + vm_compute. reflexivity.
    + vm_compute. reflexivity.
    + reflexivity.
Qed.


Lemma C4_witness :
  let st := State (sample_files "bisect" (Some (0, 6))) {["lowerings" := 5]} ∅ true 0 in
  bisecting "/c" sample_env "inductor" "lowerings" 0 6 st
  ∧ ∃ st', disable_subsystem "/c" sample_env "inductor" "lowerings" None st
           = (Ret true, st')
           ∧ counter_value "lowerings" st' = 6.
Proof.
  intros st. pose proof (sample_bisecting 0 6 {["lowerings" := 5]} ∅ 0) as Hinv.
  split; [exact Hinv|]. destruct Hinv as (Hact & Hrs & Hrange).
  destruct (C4_bisect_guard_suppresses_above_midpoint "/c" sample_env
              "inductor" "lowerings" None 0 6 st Hact Hrs Hrange)
    as (r & st' & Hcall & Hiff & Hcount).
  exists st'. split.
  - rewrite Hcall. f_equal. f_equal. apply Hiff. reflexivity.
  - exact Hcount.
Defined.

(** C5.  The code at a wide Range.  With the Range [[0, 100]]
    ([high - low = 100 > 2]) and the counter at 5, a call of the guard
    with a diagnostic producer writes the producer's text into the Debug
    Info Cache: the test of the source is [(low - high) <= 2], which
    holds for every [low <= high]. *)
Theorem C5_debug_info_cached_on_wide_range :
  let st := State (sample_files "bisect" (Some (0, 100))) {["lowerings" := 5]} ∅ true 0 in
  let run := disable_subsystem "/c" sample_env "inductor" "lowerings"
               (Some (λ _, "lowering of node 5")) st in
  get_run_state "/c" "inductor" "lowerings" st = (Ret "bisect", st)
  ∧ get_bisect_range "/c" "inductor" "lowerings" st = (Ret (0, 100), st)
  ∧ call_counter_debug_info st !! 5 = None
  ∧ run.1 = Ret false
  ∧ call_counter_debug_info run.2 !! 5 = Some "lowering of node 5".
Proof. split_and!; vm_compute; reflexivity. Qed.

Lemma C6_witness :
  let st := sample_state "paused" (Some (0, 6)) in
  guard_active "/c" sample_env "inductor" "lowerings" st
  ∧ get_run_state "/c" "inductor" "lowerings" st = (Ret "paused", st)
  ∧ "paused" ≠ "test_disable" ∧ "paused" ≠ "find_max_bounds"
  ∧ ∃ st', disable_subsystem "/c" sample_env "inductor" "lowerings" None st
           = (Ret false, st').
Proof.
  intros st.
  assert (Hrs : get_run_state "/c" "inductor" "lowerings" st = (Ret "paused", st))
    by (vm_compute; reflexivity).
  split_and!; [apply sample_guard_active|exact Hrs|discriminate..|].
  destruct (C6_guard_other_run_state "/c" sample_env "inductor" "lowerings"
              "paused" None st (sample_guard_active _ _ _ _ _) Hrs
              ltac:(discriminate) ltac:(discriminate)) as [_ Hanswer].
  destruct (Hanswer 0 6) as [st' Hcall]; [vm_compute; reflexivity|].
  exists st'. exact Hcall.
Defined.

Lemma C6_counterexample :
  let st := sample_state "paused" (Some (0, 6)) in
  guard_active "/c" sample_env "inductor" "lowerings" st
  ∧ get_run_state "/c" "inductor" "lowerings" st = (Ret "paused", st)
  ∧ ¬ guard_raises "/c" sample_env "inductor" "lowerings" None st.
Proof.
  intros st. split_and!.
  - apply sample_guard_active.
  - vm_compute; reflexivity.
  - intros (e & st' & Hcall). vm_compute in Hcall. discriminate.
Qed.

Lemma C7_witness :
  let st := sample_state "find_max_bounds" None in
  get_run_state "/c" "inductor" "lowerings" st = (Ret "find_max_bounds", st)
  ∧ ∃ msg,
      perform_bisection "/c" 1 "inductor" "lowerings" (mret true) false st
      = (Raise (RuntimeError msg), probe_state st)
      ∧ get_run_state "/c" "inductor" "lowerings" (probe_state st)
        = (Ret "find_max_bounds", probe_state st).
Proof.
  intros st.
  assert (Hrs : get_run_state "/c" "inductor" "lowerings" st
                = (Ret "find_max_bounds", st)) by (vm_compute; reflexivity).
  split; [exact Hrs|].
  destruct (C7_find_max_bounds_contract_violation "/c" 0 "inductor" "lowerings"
              (mret true) false st (probe_state st) Hrs eq_refl)
    as (msg & Hrun & Hkept).
  exists msg. split; [exact Hrun|]. apply Hkept. reflexivity.
Defined.

Lemma C9_witness :
  files (fresh_process ∅) !! bisect_range_path "/c" "inductor" "lowerings" = None
  ∧ ∃ msg, get_bisect_range "/c" "inductor" "lowerings" (fresh_process ∅)
           = (Raise (RuntimeError msg), fresh_process ∅).
Proof.
  split; [apply lookup_empty|].
  destruct (C9_range_query_before_persisted "/c" "inductor" "lowerings"
              (fresh_process ∅) (lookup_empty _)) as [msg Hraise].
  exists msg. exact Hraise.
Defined.






(** * The further properties on the sample session *)

Lemma X1_witness :
  bisection_enabled (fresh_process ∅) = false
  ∧ disable_subsystem "/c" sample_env "inductor" "lowerings" None (fresh_process ∅)
    = (Ret false, fresh_process ∅).
Proof.
  split; [reflexivity|].
  apply (X1_guard_fast_path "/c" sample_env "inductor" "lowerings" "" "").
  left. reflexivity.
Defined.

Lemma X2_witness :
  guard_active "/c" sample_env "inductor" "lowerings"
    (sample_state "test_disable" None)
  ∧ run_sites "/c" sample_env [sample_site; CallSite "inductor" "post_grad_passes" None]
      (sample_state "test_disable" None)
    = (Ret [true; false], sample_state "test_disable" None).
Proof.
  split; [apply sample_guard_active|].
  apply (X2_test_disable_suppresses_every_call "/c" sample_env
           "inductor" "lowerings"
           [sample_site; CallSite "inductor" "post_grad_passes" None]
           (sample_state "test_disable" None)).
  - apply sample_guard_active.
  - vm_compute; reflexivity.
Defined.

Lemma sample_cursor_max (value run_state : string) (range : option (Z * Z)) :
  let st := sample_state run_state range in
  get_backend "/c" (sample_env_max value) st = (Ret "inductor", st)
  ∧ get_subsystem "/c" (sample_env_max value) st = (Ret "lowerings", st).
Proof.
  intros st. split.
  - apply (reads_file_run (bisect_status_path "/c") _
             (State (sample_files "" None) ∅ ∅ true 0) _
             (State (sample_files "" None) ∅ ∅ true 0)).
    + apply get_backend_reads.
    + vm_compute; reflexivity.
    + destruct range as [[l h]|]; vm_compute; reflexivity.
  - apply (reads_file_run (bisect_status_path "/c") _
             (State (sample_files "" None) ∅ ∅ true 0) _
             (State (sample_files "" None) ∅ ∅ true 0)).
    + apply get_subsystem_reads.
    + vm_compute; reflexivity.
    + destruct range as [[l h]|]; vm_compute; reflexivity.
Defined.

Lemma X3_witness :
  let st := sample_state "find_max_bounds" None in
  get_env_val (sample_env_max "2") "TORCH_BISECT_MAX" = Some "2"
  ∧ (String.length "2" ≤ int_max_str_digits)%nat
  ∧ py_int "2" = Some 2
  ∧ ∃ st', run_sites "/c" (sample_env_max "2") (replicate 5 sample_site) st
           = (Ret [false; false; false; true; true], st')
      ∧ files st' = files st.
Proof.
  intros st.
  assert (Hlen : (String.length "2" ≤ int_max_str_digits)%nat)
    by (unfold int_max_str_digits; cbn; lia).
  split_and!; [reflexivity|exact Hlen|reflexivity|].
  destruct (sample_cursor_max "2" "find_max_bounds" None) as [Hb Hs].
  destruct (X3_max_override_suppresses_above_bound "/c" (sample_env_max "2")
              "inductor" "lowerings" "2" 2 (replicate 5 sample_site) st
              eq_refl Hb Hs eq_refl Hlen eq_refl) as (st' & Hrun & Hfiles & _).
  exists st'. split; [exact Hrun|exact Hfiles].
Defined.

Lemma X4_witness :
  let st := sample_state "bisect" None in
  get_env_val (sample_env_max "two") "TORCH_BISECT_MAX" = Some "two"
  ∧ py_int "two" = None
  ∧ ∃ msg st', disable_subsystem "/c" (sample_env_max "two")
                 "inductor" "lowerings" None st
               = (Raise (ValueError msg), st')
      ∧ counter_value "lowerings" st' = 1.
Proof.
  intros st. split_and!; [reflexivity..|].
  destruct (sample_cursor_max "two" "bisect" None) as [Hb Hs].
  destruct (X4_max_override_malformed "/c" (sample_env_max "two")
              "inductor" "lowerings" "two" None st
              eq_refl Hb Hs eq_refl ltac:(discriminate) eq_refl)
    as (msg & st' & Hcall & Hcount & _).
  exists msg, st'. split; [exact Hcall|exact Hcount].
Defined.




Lemma X8_witness :
  let st := sample_state "bisect" (Some (0, 6)) in
  plain_name "inductor" = true ∧ plain_name "lowerings" = true
  ∧ plain_name "aot_eager_decomp_partition" = true
  ∧ plain_name "decomposition" = true
  ∧ (get_run_state "/c" "inductor" "lowerings"
       (update_bisect_range "/c" "aot_eager_decomp_partition" "decomposition"
          0 1 st).2).1
    = Ret "bisect"
  ∧ (get_bisect_range "/c" "inductor" "lowerings"
       (update_run_state "/c" "aot_eager_decomp_partition" "decomposition"
          "test_disable" st).2).1
    = Ret (0, 6).
Proof.
  intros st.
  destruct (X8_records_do_not_interfere "/c" sample_env
              "inductor" "lowerings" "aot_eager_decomp_partition" "decomposition"
              "test_disable" 0 1 st eq_refl eq_refl eq_refl eq_refl)
    as ((Hstate & _ & _) & (Hrange & _ & _) & _).
  split_and!; [reflexivity..| |].
  - rewrite Hstate. vm_compute; reflexivity.
  - rewrite Hrange. vm_compute; reflexivity.
Defined.

Lemma X11_witness :
  (length ["bisect_helper.py"] < 2)%nat
  ∧ command_line_usage "/c" sample_env 0 ["bisect_helper.py"] (fresh_process ∅)
    = (Raise (SystemExit 1), fresh_process ∅).
Proof.
  split; [cbn; lia|].
  apply (X11_usage_error_exits_1 "/c" sample_env 0 ["bisect_helper.py"]
           (fresh_process ∅)).
  left. cbn. lia.
Defined.

Lemma X12_witness :
  let st := sample_state "paused" None in
  get_run_state "/c" "inductor" "lowerings" st = (Ret "paused", st)
  ∧ perform_bisection "/c" 1 "inductor" "lowerings" (mret true) false st
    = (Raise (RuntimeError "Unexpected run_state paused"), cleared st).
Proof.
  intros st.
  assert (Hrs : get_run_state "/c" "inductor" "lowerings" st = (Ret "paused", st))
    by (vm_compute; reflexivity).
  split; [exact Hrs|].
  apply (X12_unexpected_run_state "/c" 0 "inductor" "lowerings" "paused"
           (mret true) false st Hrs); discriminate.
Defined.

Lemma X13_witness :
  let content := "low=3" +:+ String LF "" in
  let st := fresh_process {[ bisect_range_path "/c" "inductor" "lowerings" := content ]} in
  files st !! bisect_range_path "/c" "inductor" "lowerings" = Some content
  ∧ Forall (λ line, startswith line "high=" = false) (readlines content)
  ∧ ∃ e, (get_bisect_range "/c" "inductor" "lowerings" st).1 = Raise e.
Proof.
  intros content st.
  assert (Hf : files st !! bisect_range_path "/c" "inductor" "lowerings"
               = Some content) by apply lookup_singleton_eq.
  assert (Hall : Forall (λ line, startswith line "high=" = false)
                   (readlines content))
    by (repeat constructor).
  split_and!; [exact Hf|exact Hall|].
  apply (X13_partial_range_record_rejected "/c" "inductor" "lowerings" content st
           Hf).
  left. exact Hall.
Defined.




Lemma X18_witness :
  let content := "bisect" +:+ String LF "high=3" in
  let st := fresh_process {[ run_state_path "/c" "inductor" "lowerings" := content ]} in
  all_chars (λ c, negb (isspace c)) "bisect" = true
  ∧ get_run_state "/c" "inductor" "lowerings" st = (Ret "bisect", st).
Proof.
  intros content st. split; [reflexivity|].
  apply (X18_run_state_is_first_line "/c" "inductor" "lowerings" "bisect" "high=3" st).
  - reflexivity.
  - apply lookup_singleton_eq.
Defined.

